(** * Presence and message dispatch core of the chat server

    A shallow embedding of [src/config/socket.js] (the Socket.IO handlers),
    of the Mongoose schemas it writes to ([Message], [Group]) and of the
    group REST routes and middleware that edit the same persisted groups.

    Conventions of the embedding.
    - Every listener is an [async] callback.  One invocation of a listener is
      modelled as one run of a computation in the monad [M]: it reads the
      outcome of each awaited store call from an environment, threads the
      in-memory registries and the database, and records what it does on the
      outside (store calls, emitted events, [console.error] lines) in a
      chronological list of effects.  Interleaving of several invocations is
      not modelled.
    - A JavaScript value that may be [undefined] or [null] is an [option].
    - Ids and text are strings.  An id in the store is the string that
      [toString()] prints; an id in a payload is the string the client
      sent, which names the same ObjectId in either case of its digits.
      The store calls compare ids as strings: a statement that relates a
      payload id to the stored records is made for ids in the printed
      spelling ([is_ObjectId_string]), and the REST routes that store a
      validated payload id store [castObjectId] of it.  Lengths and
      trimming are those of JavaScript on ASCII text ([is_ascii_text]).
    - [console.log] lines are not recorded; [console.error] lines are.
    - The listeners that neither read nor write a store ([typing],
      [stop-typing], [get-user-status], [group-typing],
      [group-stop-typing]) are synchronous: they are plain functions of
      the world, in a section of their own. *)

From stdpp Require Import base strings list gmap.

Local Open Scope string_scope.
Local Open Scope list_scope.

(** ** Identifiers and documents *)

(** Identities are the hexadecimal strings of the ObjectIds
    ([user._id.toString()], [group._id.toString()]); socket ids are the
    strings Socket.IO generates.  Room names share one name space: a room is
    named by a socket id, a user id or a group id. *)
Definition UserId := string.
Definition GroupId := string.
Definition SocketId := string.
Definition Date := nat.

(** The authenticated connection: [socket.id], [socket.userId],
    [socket.username]. *)
Record Socket := mkSocket {
  id : SocketId;
  userId : UserId;
  username : string
}.

(** A document of the [Message] collection (messageSchema).  [sender] and
    [content] are options because the document exists, unvalidated, between
    [new Message(...)] and [save()]. *)
Record Message := mkMessage {
  m_id : nat;
  sender : option UserId;
  receiver : option UserId;
  content : option string;
  messageType : string;
  isRead : bool;
  readAt : option Date;
  group : option GroupId
}.

(** A document of the [Group] collection (groupSchema). *)
Record Group := mkGroup {
  g_id : GroupId;
  name : string;
  members : list UserId;
  admins : list UserId
}.

(** The fields of a [User] document that the handlers touch. *)
Record User := mkUser {
  u_id : UserId;
  u_username : string;
  isOnline : bool;
  lastSeen : option Date
}.

#[global] Instance Socket_eq_dec : EqDecision Socket.
Proof. solve_decision. Defined.
#[global] Instance Message_eq_dec : EqDecision Message.
Proof. solve_decision. Defined.
#[global] Instance Group_eq_dec : EqDecision Group.
Proof. solve_decision. Defined.
#[global] Instance User_eq_dec : EqDecision User.
Proof. solve_decision. Defined.

(** The database: the three collections. *)
Record Store := mkStore {
  messages : list Message;
  groups : list Group;
  users : list User
}.

(** ** JavaScript helpers *)

(** Truthiness of a string: only the empty string is falsy. *)
Definition truthy (s : string) : bool := negb (String.eqb s "").

(** [a || b] on an optional string. *)
Definition or_default (a : option string) (b : string) : string :=
  match a with
  | Some s => if truthy s then s else b
  | None => b
  end.

(** White space removed by [String.prototype.trim], on the ASCII range. *)
Definition is_space (c : Ascii.ascii) : bool :=
  let n := Ascii.nat_of_ascii c in
  Nat.eqb n 32 || (Nat.leb 9 n && Nat.leb n 13).

Fixpoint trimStart (s : string) : string :=
  match s with
  | EmptyString => EmptyString
  | String c s' => if is_space c then trimStart s' else s
  end.

(** [trimEnd s] drops the trailing white space: a character is kept when
    it is not a space or when something is kept after it. *)
Fixpoint trimEnd (s : string) : string :=
  match s with
  | EmptyString => EmptyString
  | String c s' =>
      match trimEnd s' with
      | EmptyString => if is_space c then EmptyString else String c EmptyString
      | r => String c r
      end
  end.

Definition trim (s : string) : string := trimEnd (trimStart s).

(** Strings are sequences of 8-bit characters.  On text of the ASCII range
    a character is one UTF-16 code unit, so that [String.length] is
    JavaScript's [.length] and [trim] is [String.prototype.trim]; outside
    it the two differ (a character of several bytes, the white space
    U+00A0), and the statements about lengths and trimmed text are made for
    ASCII text. *)
Definition is_ascii_text (s : string) : bool :=
  forallb (fun c => Nat.ltb (Ascii.nat_of_ascii c) 128)
    (String.list_ascii_of_string s).

(** ** ObjectId strings

    Mongoose casts a string to an ObjectId wherever a schema path or a
    query filter expects one, and reads the 24 hexadecimal digits without
    regard to case; [toString()] prints them in lower case.  The presence
    map and the room table are keyed by strings and compare them as they are
    spelled. *)
Definition is_lower_hex_digit (c : Ascii.ascii) : bool :=
  let n := Ascii.nat_of_ascii c in
  (Nat.leb 48 n && Nat.leb n 57) || (Nat.leb 97 n && Nat.leb n 102).

(** The spelling that [ObjectId.prototype.toString()] gives: 24 lower-case
    hexadecimal digits.  On such a string the store, which compares cast
    ids, and the registries, which compare strings, agree. *)
Definition is_ObjectId_string (s : string) : bool :=
  Nat.eqb (String.length s) 24
  && forallb is_lower_hex_digit (String.list_ascii_of_string s).

Definition to_lower_hex (c : Ascii.ascii) : Ascii.ascii :=
  let n := Ascii.nat_of_ascii c in
  if Nat.leb 65 n && Nat.leb n 70 then Ascii.ascii_of_nat (n + 32) else c.

Fixpoint map_string (f : Ascii.ascii -> Ascii.ascii) (s : string) : string :=
  match s with
  | EmptyString => EmptyString
  | String c s' => String (f c) (map_string f s')
  end.

(** [new ObjectId(s).toString()] for a string [s] of 24 hexadecimal digits:
    the same digits, in lower case. *)
Definition castObjectId (s : string) : string := map_string to_lower_hex s.

(** ** The [onlineUsers] map

    A JavaScript [Map] keeps its keys in insertion order and [set] on a
    present key keeps the key's position; [Array.from(onlineUsers.keys())]
    is sent to clients, so the order is kept: an association list without
    duplicate keys. *)
Definition PresenceMap := list (UserId * SocketId).

Fixpoint Map_get (m : PresenceMap) (k : UserId) : option SocketId :=
  match m with
  | [] => None
  | (k', v) :: m' => if String.eqb k' k then Some v else Map_get m' k
  end.

Fixpoint Map_set (m : PresenceMap) (k : UserId) (v : SocketId) : PresenceMap :=
  match m with
  | [] => [(k, v)]
  | (k', v') :: m' =>
      if String.eqb k' k then (k', v) :: m' else (k', v') :: Map_set m' k v
  end.

Fixpoint Map_delete (m : PresenceMap) (k : UserId) : PresenceMap :=
  match m with
  | [] => []
  | (k', v') :: m' =>
      if String.eqb k' k then Map_delete m' k else (k', v') :: Map_delete m' k
  end.

Definition Map_has (m : PresenceMap) (k : UserId) : bool :=
  match Map_get m k with Some _ => true | None => false end.

Definition Map_keys (m : PresenceMap) : list UserId := map fst m.

(** A key that is [undefined] in the payload is never a key of the map. *)
Definition Map_get_opt (m : PresenceMap) (k : option UserId) : option SocketId :=
  match k with
  | Some k => Map_get m k
  | None => None
  end.

(** ** Effects *)

(** What a store call or a statement can throw. *)
Inductive Error :=
  | TypeError          (* destructuring an undefined payload *)
  | JsonWebTokenError  (* jwt.verify refused the token *)
  | ValidationError    (* Mongoose schema validation at save/create *)
  | StoreError.        (* the database call itself rejected *)

(** The awaited calls into the stores, by call site kind. *)
Inductive StoreCall :=
  | MessageSave
  | MessagePopulate (path : string)
  | MessageUpdateMany
  | MessageDeleteMany
  | GroupFind
  | GroupFindById
  | GroupCreate
  | GroupPopulate (path : string)
  | GroupFindByIdAndUpdate
  | GroupFindByIdAndDelete
  | GroupSave
  | UserFindById
  | UserFindByIdAndUpdate.

#[global] Instance Error_eq_dec : EqDecision Error.
Proof. solve_decision. Defined.
#[global] Instance StoreCall_eq_dec : EqDecision StoreCall.
Proof. solve_decision. Defined.

(** The addressee of an emit. *)
Inductive Target :=
  | ToSocket (sid : SocketId)                    (* socket.emit(...) *)
  | ToRoom (room : string)                       (* io.to(room).emit(...) *)
  | ToRoomExcept (room : string) (sid : SocketId)  (* socket.to(room).emit(...) *)
  | ToAll.                                       (* io.emit(...) *)

(** The outbound events, under their literal labels where these are
    identifiers. *)
Inductive Event :=
  | receive_message (message : Message)
  | sent_message (message : Message)
  | online_users (ids : list UserId)
  | messages_read (readBy : UserId)
  | group_created (g : Group)
  | receive_group_messsage (message : Message)
  | error_event (message : string)
  | connection_success (message : string) (uid : UserId) (uname : string).

Inductive Effect :=
  | Db (call : StoreCall) (ok : bool)       (* a store call settled *)
  | Emit (to : Target) (ev : Event)
  | ConsoleError (label : string) (e : Error)
  | UnhandledRejection (e : Error).         (* logged by index.js *)

#[global] Instance Target_eq_dec : EqDecision Target.
Proof. solve_decision. Defined.
#[global] Instance Event_eq_dec : EqDecision Event.
Proof. solve_decision. Defined.
#[global] Instance Effect_eq_dec : EqDecision Effect.
Proof. solve_decision. Defined.

(** ** The world and the handler monad *)

(** The process state the handlers share: the module-level [onlineUsers]
    map, the connected sockets ([io.sockets.sockets]), the rooms of the
    Socket.IO adapter (room name to the ids of the sockets in it) and the
    database. *)
Record World := mkWorld {
  onlineUsers : PresenceMap;
  sockets : list Socket;
  rooms : gmap string (gset SocketId);
  db : Store
}.

(** What one invocation reads from outside: whether each store call rejects
    (an unreachable database, a value that does not cast to an ObjectId),
    the clock ([new Date()]), the ObjectId given to a newly created group
    and the verifier [jwt.verify(token, JWT_SECRET)], which yields the
    [userId] of the decoded token or throws ([None]). *)
Record Env := mkEnv {
  rejects : StoreCall -> bool;
  now : Date;
  new_group_id : GroupId;
  jwt_verify : string -> option UserId
}.

Inductive Outcome (A : Type) :=
  | Ok (a : A)
  | Throw (e : Error).
Arguments Ok {A} a.
Arguments Throw {A} e.

Record Run (A : Type) := mkRun {
  outcome : Outcome A;
  world : World;
  effects : list Effect
}.
Arguments mkRun {A} _ _ _.
Arguments outcome {A} _.
Arguments world {A} _.
Arguments effects {A} _.

Definition M (A : Type) : Type := Env -> World -> Run A.

#[global] Instance M_ret : MRet M :=
  fun A a _ w => mkRun (Ok a) w [].

#[global] Instance M_bind : MBind M :=
  fun A B f m env w =>
    match m env w with
    | mkRun (Ok a) w1 t1 =>
        match f a env w1 with
        | mkRun o w2 t2 => mkRun o w2 (t1 ++ t2)
        end
    | mkRun (Throw e) w1 t1 => mkRun (Throw e) w1 t1
    end.

Definition throw {A} (e : Error) : M A := fun _ w => mkRun (Throw e) w [].

(** [try { body } catch (error) { handler }]. *)
Definition try_catch {A} (body : M A) (handler : Error -> M A) : M A :=
  fun env w =>
    match body env w with
    | mkRun (Ok a) w1 t1 => mkRun (Ok a) w1 t1
    | mkRun (Throw e) w1 t1 =>
        match handler e env w1 with
        | mkRun o w2 t2 => mkRun o w2 (t1 ++ t2)
        end
    end.

Definition get_world : M World := fun _ w => mkRun (Ok w) w [].
Definition put_world (w : World) : M unit := fun _ _ => mkRun (Ok tt) w [].
Definition get_env : M Env := fun env w => mkRun (Ok env) w [].
Definition effect (e : Effect) : M unit := fun _ w => mkRun (Ok tt) w [e].

Definition emit (to : Target) (ev : Event) : M unit := effect (Emit to ev).
Definition console_error (label : string) (e : Error) : M unit :=
  effect (ConsoleError label e).

Definition modify_db (f : Store -> Store) : M unit :=
  w ← get_world;
  put_world (mkWorld (onlineUsers w) (sockets w) (rooms w) (f (db w))).

Definition modify_onlineUsers (f : PresenceMap -> PresenceMap) : M unit :=
  w ← get_world;
  put_world (mkWorld (f (onlineUsers w)) (sockets w) (rooms w) (db w)).

(** An awaited store call: it settles, rejecting when the environment says
    so; the settlement is recorded. *)
Definition store_call (c : StoreCall) : M unit :=
  fun env w =>
    if rejects env c
    then mkRun (Throw StoreError) w [Db c false]
    else mkRun (Ok tt) w [Db c true].

(** A listener registered with [socket.on(name, async ...)]: a rejection
    that escapes the callback reaches nobody but the process-wide
    [unhandledRejection] hook of index.js, which logs it. *)
Definition listener (body : M unit) : M unit :=
  try_catch body (fun e => effect (UnhandledRejection e)).

(** A promise that is started and not awaited
    ([User.findByIdAndUpdate(...).exec()] at connection time): the caller
    goes on whatever the result. *)
Definition not_awaited (body : M unit) : M unit :=
  try_catch body (fun e => effect (UnhandledRejection e)).

(** [forEach] over a list. *)
Fixpoint forEach {A} (l : list A) (f : A -> M unit) : M unit :=
  match l with
  | [] => mret tt
  | x :: l' => f x ;; forEach l' f
  end.

(** ** Rooms and delivery *)

Definition room_members (rs : gmap string (gset SocketId)) (room : string)
  : gset SocketId :=
  default ∅ (rs !! room).

(** [socket.join(room)]. *)
Definition socket_join (sid : SocketId) (room : string) : M unit :=
  w ← get_world;
  put_world (mkWorld (onlineUsers w) (sockets w)
               (<[room := {[sid]} ∪ room_members (rooms w) room]> (rooms w))
               (db w)).

(** [socket.leave(room)]. *)
Definition socket_leave (sid : SocketId) (room : string) : M unit :=
  w ← get_world;
  put_world (mkWorld (onlineUsers w) (sockets w)
               (<[room := room_members (rooms w) room ∖ {[sid]}]> (rooms w))
               (db w)).

(** The connections an emit reaches. *)
Definition recipients (w : World) (to : Target) : gset SocketId :=
  match to with
  | ToSocket sid => {[sid]}
  | ToRoom room => room_members (rooms w) room
  | ToRoomExcept room sid => room_members (rooms w) room ∖ {[sid]}
  | ToAll => list_to_set (id <$> sockets w)
  end.

(** ** The [Message] model (messageSchema) *)

(** [new Message({sender, receiver, content, messageType, group})]: the
    schema's setters and defaults.  [content] has [trim: true]; [receiver]
    and [group] default to [null]; [isRead] defaults to [false]. *)
Definition new_Message (sender receiver : option UserId)
    (content : option string) (messageType : string)
    (group : option GroupId) : Message :=
  {| m_id := 0;
     sender := sender;
     receiver := receiver;
     content := trim <$> content;
     messageType := messageType;
     isRead := false;
     readAt := None;
     group := group |}.

(** [required: true] on a String path: absent, [null] and the empty string
    all fail. *)
Definition required_string (s : option string) : bool :=
  match s with
  | Some s => truthy s
  | None => false
  end.

Definition messageType_enum : list string := ["text"; "image"; "file"].

(** Schema validation run by [save()]: [sender] required, [content]
    required, [messageType] in the enum.  Nothing is required of
    [receiver] or [group]. *)
Definition validate_Message (m : Message) : bool :=
  match sender m with Some _ => true | None => false end
  && required_string (content m)
  && bool_decide (messageType m ∈ messageType_enum).

Definition fresh_id (ms : list Message) : nat :=
  S (foldr Nat.max 0 (m_id <$> ms)).

Definition insert_message (m : Message) (s : Store) : Store :=
  mkStore (messages s ++ [m]) (groups s) (users s).

(** [await message.save()]: validation first, then the write.  The saved
    document is returned with its identifier. *)
Definition Message_save (m : Message) : M Message :=
  if validate_Message m then
    store_call MessageSave ;;
    w ← get_world;
    let saved :=
      {| m_id := fresh_id (messages (db w));
         sender := sender m; receiver := receiver m; content := content m;
         messageType := messageType m; isRead := isRead m;
         readAt := readAt m; group := group m |} in
    modify_db (insert_message saved) ;;
    mret saved
  else
    effect (Db MessageSave false) ;; throw ValidationError.

(** [await message.populate(path, ...)]: a read that replaces references by
    sub-documents in the in-memory copy; the copy keeps its identity.  The
    sub-documents are not modelled: the returned value stands for the
    populated document, with which it shares the identifier and every path
    that is not populated; on a populated path the document holds the
    referenced user, or [null] when the store has none, where the value
    returned here still holds the id. *)
Definition Message_populate (m : Message) (path : string) : M Message :=
  store_call (MessagePopulate path) ;; mret m.

(** The filter [{sender, receiver, isRead: false}] of [updateMany]: each
    path is compared for equality, an [undefined] value being sent as
    [null].  The ids are compared as strings, which is the comparison of
    the cast ids when the id of the filter is spelled as [toString()]
    spells it ([is_ObjectId_string]). *)
Definition unread_from_to (senderId : option UserId) (receiverId : UserId)
    (m : Message) : bool :=
  bool_decide (sender m = senderId)
  && bool_decide (receiver m = Some receiverId)
  && negb (isRead m).

Definition mark_as_read (at_ : Date) (m : Message) : Message :=
  {| m_id := m_id m; sender := sender m; receiver := receiver m;
     content := content m; messageType := messageType m;
     isRead := true; readAt := Some at_; group := group m |}.

(** [await Message.updateMany(filter, {isRead: true, readAt: new Date()})]. *)
Definition Message_updateMany_read (senderId : option UserId)
    (receiverId : UserId) : M unit :=
  store_call MessageUpdateMany ;;
  env ← get_env;
  modify_db (fun s =>
    mkStore
      ((fun m => if unread_from_to senderId receiverId m
                 then mark_as_read (now env) m else m) <$> messages s)
      (groups s) (users s)).

(** [await Message.deleteMany({group: groupId})]. *)
Definition Message_deleteMany_group (gid : GroupId) : M unit :=
  store_call MessageDeleteMany ;;
  modify_db (fun s =>
    mkStore (filter (fun m => group m ≠ Some gid) (messages s))
            (groups s) (users s)).

(** ** The [Group] model (groupSchema) *)

Definition lookup_group (s : Store) (gid : GroupId) : option Group :=
  find (fun g => bool_decide (g_id g = gid)) (groups s).

(** [await Group.findById(groupId)]; an [undefined] id finds nothing. *)
Definition Group_findById (gid : option GroupId) : M (option Group) :=
  store_call GroupFindById ;;
  w ← get_world;
  mret (match gid with
        | Some gid => lookup_group (db w) gid
        | None => None
        end).

(** [await Group.find({members: userId})]. *)
Definition Group_find_members (uid : UserId) : M (list Group) :=
  store_call GroupFind ;;
  w ← get_world;
  mret (filter (fun g => uid ∈ members g) (groups (db w))).

(** [await Group.create({name, members, admins})]. *)
Definition Group_create (nm : string) (ms ads : list UserId) : M Group :=
  store_call GroupCreate ;;
  env ← get_env;
  let g := mkGroup (new_group_id env) nm ms ads in
  modify_db (fun s => mkStore (messages s) (groups s ++ [g]) (users s)) ;;
  mret g.

Definition Group_populate (g : Group) (path : string) : M Group :=
  store_call (GroupPopulate path) ;; mret g.

Definition update_group (gid : GroupId) (f : Group -> Group) (s : Store)
  : Store :=
  mkStore (messages s)
    ((fun g => if bool_decide (g_id g = gid) then f g else g) <$> groups s)
    (users s).

(** [await Group.findByIdAndUpdate(groupId, {$pull: {members: userId}})]. *)
Definition Group_findByIdAndUpdate_pull_member (gid : GroupId) (uid : UserId)
  : M unit :=
  store_call GroupFindByIdAndUpdate ;;
  modify_db (update_group gid (fun g =>
    mkGroup (g_id g) (name g) (filter (fun m => m ≠ uid) (members g))
            (admins g))).

(** [await group.save()] on a fetched and edited document. *)
Definition Group_save (g : Group) : M unit :=
  store_call GroupSave ;;
  modify_db (update_group (g_id g) (fun _ => g)).

(** [await Group.findByIdAndDelete(groupId)]. *)
Definition Group_findByIdAndDelete (gid : GroupId) : M unit :=
  store_call GroupFindByIdAndDelete ;;
  modify_db (fun s =>
    mkStore (messages s) (filter (fun g => g_id g ≠ gid) (groups s))
            (users s)).

(** ** The [User] model *)

Definition lookup_user (s : Store) (uid : UserId) : option User :=
  find (fun u => bool_decide (u_id u = uid)) (users s).

(** [await User.findById(id)]. *)
Definition User_findById (uid : UserId) : M (option User) :=
  store_call UserFindById ;;
  w ← get_world;
  mret (lookup_user (db w) uid).

(** [User.findByIdAndUpdate(id, {isOnline, lastSeen?})]: [lastSeen] is
    written only when the update names it. *)
Definition User_findByIdAndUpdate (uid : UserId) (online : bool)
    (seen : option Date) : M unit :=
  store_call UserFindByIdAndUpdate ;;
  modify_db (fun s =>
    mkStore (messages s) (groups s)
      ((fun u => if bool_decide (u_id u = uid)
                 then mkUser (u_id u) (u_username u) online
                        (match seen with Some d => Some d | None => lastSeen u end)
                 else u) <$> users s)).

(** ** src/config/socket.js *)

(** [getOnlineUsers]. *)
Definition getOnlineUsers (w : World) : list UserId := Map_keys (onlineUsers w).

(** [socketAuthMiddleware(socket, next)]: [inl msg] is [next(new Error(msg))],
    [inr socket] is [next()] with [socket.userId] and [socket.username]
    bound.  [token] is [socket.handshake.auth.token]. *)
Definition socketAuthMiddleware (sid : SocketId) (token : option string)
  : M (string + Socket) :=
  try_catch
    (if required_string token then
       env ← get_env;
       match jwt_verify env (default "" token) with
       | None => throw JsonWebTokenError
       | Some decoded_userId =>
           user ← User_findById decoded_userId;
           match user with
           | None => mret (inl "User not Found")
           | Some u => mret (inr (mkSocket sid (u_id u) (u_username u)))
           end
       end
     else mret (inl "Authentication error"))
    (fun _ => mret (inl "Authorization error")).

(** The emit addressed to the presence entry of [uid], if there is one:
    [const s = onlineUsers.get(uid); if (s) io.to(s).emit(ev)]. *)
Definition emit_if_online (uid : option UserId) (ev : Event) : M unit :=
  w ← get_world;
  match Map_get_opt (onlineUsers w) uid with
  | Some socketId => if truthy socketId then emit (ToRoom socketId) ev else mret tt
  | None => mret tt
  end.

(** Payload of [send-message]. *)
Record SendMessage := mkSendMessage {
  receiverId : option UserId;
  sm_content : option string;
  sm_messageType : option string
}.

(** [socket.on("send-message", async (data) => ...)], lines 71-99. *)
Definition on_send_message (socket : Socket) (data : option SendMessage)
  : M unit :=
  listener
    (try_catch
       (match data with
        | None => throw TypeError
        | Some data =>
            let message :=
              new_Message (Some (userId socket)) (receiverId data)
                (sm_content data) (or_default (sm_messageType data) "text")
                None in
            message ← Message_save message;
            message ← Message_populate message "sender";
            message ← Message_populate message "receiver";
            emit_if_online (receiverId data) (receive_message message) ;;
            emit (ToSocket (id socket)) (sent_message message)
        end)
       (fun error =>
          console_error "Error sending message:" error ;;
          emit (ToSocket (id socket)) (error_event "Failed to send message"))).

(** Payload of [mark-read]. *)
Record MarkRead := mkMarkRead { senderId : option UserId }.

(** [socket.on("mark-read", async (data) => ...)], lines 160-184. *)
Definition on_mark_read (socket : Socket) (data : option MarkRead) : M unit :=
  listener
    (try_catch
       (match data with
        | None => throw TypeError
        | Some data =>
            Message_updateMany_read (senderId data) (userId socket) ;;
            emit_if_online (senderId data) (messages_read (userId socket))
        end)
       (fun error => console_error "Error marking messages as read:" error)).

(** Payload of [create-group]; [cg_members] is [None] when the field is
    absent or not an array. *)
Record CreateGroup := mkCreateGroup {
  cg_name : option string;
  cg_members : option (list UserId)
}.

(** [memberSocket.join(room)] for the live socket of a member, if any
    (lines 216-224).  The presence map is asked for the id as the payload
    spells it, whereas the group stores the cast id: the two name the same
    member when the payload spells the id as [toString()] does
    ([is_ObjectId_string]). *)
Definition join_member (room : string) (memberId : UserId) : M unit :=
  w ← get_world;
  match Map_get (onlineUsers w) memberId with
  | Some memberSocketId =>
      if truthy memberSocketId then
        match find (fun s => bool_decide (id s = memberSocketId)) (sockets w) with
        | Some memberSocket => socket_join (id memberSocket) room
        | None => mret tt
        end
      else mret tt
  | None => mret tt
  end.

(** [socket.on("create-group", async ({ name, members }) => ...)], lines
    193-237.  The payload is destructured in the parameter list, outside the
    [try]. *)
Definition on_create_group (socket : Socket) (data : option CreateGroup)
  : M unit :=
  listener
    (match data with
     | None => throw TypeError
     | Some data =>
         try_catch
           (match cg_members data with
            | Some members_ =>
                if required_string (cg_name data) then
                  group ← Group_create (default "" (cg_name data))
                            (members_ ++ [userId socket]) [userId socket];
                  group ← Group_populate group "members";
                  group ← Group_populate group "admins";
                  socket_join (id socket) (g_id group) ;;
                  forEach members_ (join_member (g_id group)) ;;
                  emit (ToRoom (g_id group)) (group_created group) ;;
                  emit (ToSocket (id socket)) (group_created group)
                else
                  emit (ToSocket (id socket)) (error_event "Invalid group data")
            | None =>
                emit (ToSocket (id socket)) (error_event "Invalid group data")
            end)
           (fun error =>
              console_error "Error creating group:" error ;;
              emit (ToSocket (id socket))
                (error_event "Failed to create group"))
     end).

(** Payload of [send-group-message]. *)
Record SendGroupMessage := mkSendGroupMessage {
  groupId : option GroupId;
  sgm_content : option string;
  sgm_messageType : option string
}.

(** [socket.on("send-group-message", async (data) => ...)], lines 239-278. *)
Definition on_send_group_message (socket : Socket)
    (data : option SendGroupMessage) : M unit :=
  listener
    (try_catch
       (match data with
        | None => throw TypeError
        | Some data =>
            group ← Group_findById (groupId data);
            match group with
            | None =>
                emit (ToSocket (id socket)) (error_event "Group not found")
            | Some group =>
                if bool_decide (userId socket ∈ members group) then
                  let message :=
                    new_Message (Some (userId socket)) None
                      (sgm_content data)
                      (or_default (sgm_messageType data) "text")
                      (groupId data) in
                  message ← Message_save message;
                  message ← Message_populate message "sender";
                  emit (ToRoom (default "" (groupId data)))
                    (receive_group_messsage message)
                else
                  emit (ToSocket (id socket))
                    (error_event "You are not a member of this group")
            end
        end)
       (fun error =>
          console_error "Error sending group message:" error ;;
          emit (ToSocket (id socket)) (error_event "Failed to send message"))).

(** [socket.on("leave-group", async ({ groupId }) => ...)], lines 293-299:
    no [try]; the payload's [groupId] is taken as present. *)
Definition on_leave_group (socket : Socket) (data : option GroupId) : M unit :=
  listener
    (match data with
     | None => throw TypeError
     | Some groupId =>
         Group_findByIdAndUpdate_pull_member groupId (userId socket) ;;
         socket_leave (id socket) groupId
     end).

(** [socket.on("disconnect", async () => ...)], lines 302-315: no [try]. *)
Definition on_disconnect (socket : Socket) : M unit :=
  listener
    (modify_onlineUsers (fun m => Map_delete m (userId socket)) ;;
     env ← get_env;
     User_findByIdAndUpdate (userId socket) false (Some (now env)) ;;
     w ← get_world;
     emit ToAll (online_users (getOnlineUsers w))).

(** The body of [io.on("connection", async (socket) => ...)] apart from the
    registration of the listeners above, lines 46-69 and 317-321. *)
Definition on_connection (socket : Socket) : M unit :=
  listener
    (modify_onlineUsers (fun m => Map_set m (userId socket) (id socket)) ;;
     try_catch
       (groups ← Group_find_members (userId socket);
        forEach groups (fun group => socket_join (id socket) (g_id group)))
       (fun error => console_error "Error joining group rooms:" error) ;;
     not_awaited (User_findByIdAndUpdate (userId socket) true None) ;;
     w ← get_world;
     emit ToAll (online_users (getOnlineUsers w)) ;;
     socket_join (id socket) (userId socket) ;;
     emit ToAll
       (connection_success "Successfully connected to the socket server"
          (userId socket) (username socket))).

(** What Socket.IO itself does when a handshake passes the middleware: the
    socket enters [io.sockets.sockets] and the room named by its own id. *)
Definition io_register (socket : Socket) : M unit :=
  w ← get_world;
  put_world (mkWorld (onlineUsers w) (sockets w ++ [socket]) (rooms w) (db w)) ;;
  socket_join (id socket) (id socket).

(** What Socket.IO does on transport close before it fires [disconnect]:
    the socket leaves every room and [io.sockets.sockets]. *)
Definition io_unregister (socket : Socket) : M unit :=
  w ← get_world;
  put_world (mkWorld (onlineUsers w)
               (filter (fun s => id s ≠ id socket) (sockets w))
               ((fun r => r ∖ {[id socket]}) <$> rooms w)
               (db w)).

(** A connection attempt: [io.use(socketAuthMiddleware)] then the
    [connection] handler.  A refused handshake touches nothing. *)
Definition handshake (sid : SocketId) (token : option string)
  : M (string + Socket) :=
  r ← socketAuthMiddleware sid token;
  match r with
  | inl msg => mret (inl msg)
  | inr socket => io_register socket ;; on_connection socket ;; mret (inr socket)
  end.

(** Transport close of an authenticated connection. *)
Definition close (socket : Socket) : M unit :=
  io_unregister socket ;; on_disconnect socket.

(** ** The listeners without store calls (socket.js 133-157, 187-191,
    280-291)

    These callbacks are synchronous and only read [onlineUsers].  One
    invocation yields the signals it emits, in order, or throws: an
    exception thrown by a synchronous listener is caught by nothing in
    socket.js and reaches the [uncaughtException] hook of index.js, which
    ends the process. *)

(** The outbound events of these listeners.  [user_stop_typing] is the
    event the source labels ["user stop typing "]. *)
Inductive Signal :=
  | user_typing (uid : UserId) (uname : string)
  | user_stop_typing (uid : UserId)
  | user_status (uid : option UserId) (online : bool)
  | group_user_typing (uid : UserId) (uname : string)
  | group_user_stop_typing (uid : UserId).

(** Payload of [typing] and [stop-typing]. *)
Record Typing := mkTyping { typing_receiverId : option UserId }.

(** The signal addressed to the presence entry of [uid], if there is one. *)
Definition signal_if_online (w : World) (uid : option UserId) (s : Signal)
  : list (Target * Signal) :=
  match Map_get_opt (onlineUsers w) uid with
  | Some socketId => if truthy socketId then [(ToRoom socketId, s)] else []
  | None => []
  end.

(** [socket.on("typing", (data) => ...)], lines 133-146. *)
Definition on_typing (w : World) (socket : Socket) (data : option Typing)
  : Outcome (list (Target * Signal)) :=
  match data with
  | None => Throw TypeError
  | Some data =>
      Ok (signal_if_online w (typing_receiverId data)
            (user_typing (userId socket) (username socket)))
  end.

(** [socket.on("stop-typing", (data) => ...)], lines 150-157. *)
Definition on_stop_typing (w : World) (socket : Socket) (data : option Typing)
  : Outcome (list (Target * Signal)) :=
  match data with
  | None => Throw TypeError
  | Some data =>
      Ok (signal_if_online w (typing_receiverId data)
            (user_stop_typing (userId socket)))
  end.

(** [socket.on("get-user-status", (data) => ...)], lines 187-191; the
    payload carries [userId]. *)
Definition on_get_user_status (w : World) (socket : Socket)
    (data : option (option UserId)) : Outcome (list (Target * Signal)) :=
  match data with
  | None => Throw TypeError
  | Some uid =>
      let isOnline :=
        match uid with
        | Some u => Map_has (onlineUsers w) u
        | None => false
        end in
      Ok [(ToSocket (id socket), user_status uid isOnline)]
  end.

(** [socket.on("group-typing", ({ groupId }) => ...)], lines 280-285; the
    payload's [groupId] is taken as present. *)
Definition on_group_typing (socket : Socket) (data : option GroupId)
  : Outcome (list (Target * Signal)) :=
  match data with
  | None => Throw TypeError
  | Some groupId =>
      Ok [(ToRoomExcept groupId (id socket),
           group_user_typing (userId socket) (username socket))]
  end.

(** [socket.on("group-stop-typing", ({ groupId }) => ...)], lines 287-291. *)
Definition on_group_stop_typing (socket : Socket) (data : option GroupId)
  : Outcome (list (Target * Signal)) :=
  match data with
  | None => Throw TypeError
  | Some groupId =>
      Ok [(ToRoomExcept groupId (id socket),
           group_user_stop_typing (userId socket))]
  end.

(** ** The group REST routes and their middleware

    [middleware/group.js] and [routes/group.js].  [authMiddleware] has
    already bound [req.userId]; a middleware either answers ([inl]) or calls
    [next()] with the request it may have extended ([inr]). *)
Module GroupRoutes.

Record Request := mkRequest {
  req_userId : UserId;
  params_groupId : GroupId;
  params_memberId : UserId;
  req_group : option Group
}.

(** [res.status(code).json({error | message})]. *)
Record Response := mkResponse {
  status : nat;
  text : string
}.

Definition Middleware := Request -> M (Response + Request).

Definition with_group (req : Request) (g : Group) : Request :=
  mkRequest (req_userId req) (params_groupId req) (params_memberId req)
    (Some g).

Definition internal_error {A} : Error -> M (Response + A) :=
  fun _ => mret (inl (mkResponse 500 "error.message")).

(** [groupExists]. *)
Definition groupExists : Middleware := fun req =>
  try_catch
    (group ← Group_findById (Some (params_groupId req));
     match group with
     | None => mret (inl (mkResponse 404 "Group not found"))
     | Some group => mret (inr (with_group req group))
     end)
    internal_error.

(** [isGroupMember]. *)
Definition isGroupMember : Middleware := fun req =>
  try_catch
    (group ← Group_findById (Some (params_groupId req));
     match group with
     | None => mret (inl (mkResponse 404 "Group not found"))
     | Some group =>
         if existsb (fun memberId => String.eqb memberId (req_userId req))
              (members group)
         then mret (inr (with_group req group))
         else mret (inl (mkResponse 403 "You are not a member of this group"))
     end)
    internal_error.

(** [isGroupAdmin]. *)
Definition isGroupAdmin : Middleware := fun req =>
  try_catch
    (group ← Group_findById (Some (params_groupId req));
     match group with
     | None => mret (inl (mkResponse 404 "Group not found"))
     | Some group =>
         if existsb (fun adminId => String.eqb adminId (req_userId req))
              (admins group)
         then mret (inr (with_group req group))
         else mret (inl (mkResponse 403
                           "Only group admins can perform this action"))
     end)
    internal_error.

(** [canRemoveMember]. *)
Definition canRemoveMember : Middleware := fun req =>
  try_catch
    (group ← Group_findById (Some (params_groupId req));
     match group with
     | None => mret (inl (mkResponse 404 "Group not found"))
     | Some group =>
         if negb (existsb (fun adminId => String.eqb adminId (req_userId req))
                    (admins group))
         then mret (inl (mkResponse 403 "Only admins can remove members"))
         else if negb (existsb (fun m => String.eqb m (params_memberId req))
                         (members group))
         then mret (inl (mkResponse 400 "User is not a member of this group"))
         else if existsb (fun adminId => String.eqb adminId (params_memberId req))
                   (admins group)
         then mret (inl (mkResponse 400
                           "Cannot remove admin. Remove admin role first."))
         else mret (inr (with_group req group))
     end)
    internal_error.

(** [preventLastAdminRemoval]. *)
Definition preventLastAdminRemoval : Middleware := fun req =>
  try_catch
    (group ← Group_findById (Some (params_groupId req));
     match group with
     | None => mret (inl (mkResponse 404 "Group not found"))
     | Some group =>
         match admins group with
         | [admin0] =>
             if String.eqb admin0 (params_memberId req)
             then mret (inl (mkResponse 400
                    "Cannot remove the last admin. Promote another member to admin first."))
             else mret (inr (with_group req group))
         | _ => mret (inr (with_group req group))
         end
     end)
    internal_error.

(** A route: the middleware in order, then the handler. *)
Fixpoint route (mws : list Middleware) (handler : Request -> M Response)
    (req : Request) : M Response :=
  match mws with
  | [] => handler req
  | mw :: mws' =>
      r ← mw req;
      match r with
      | inl res => mret res
      | inr req' => route mws' handler req'
      end
  end.

Definition respond_500 : Error -> M Response :=
  fun _ => mret (mkResponse 500 "error.message").

(** [router.delete("/:groupId/members/:memberId", ...)]. *)
Definition remove_member : Request -> M Response :=
  route [canRemoveMember] (fun req =>
    try_catch
      (match req_group req with
       | None => throw TypeError
       | Some group =>
           let group :=
             mkGroup (g_id group) (name group)
               (filter (fun m => m ≠ params_memberId req) (members group))
               (admins group) in
           Group_save group ;;
           group ← Group_populate group "members";
           group ← Group_populate group "admins";
           mret (mkResponse 200 "Member removed successfully")
       end)
      respond_500).

(** [router.post("/:groupId/leave", ...)], lines 171-206. *)
Definition leave : Request -> M Response :=
  route [groupExists; isGroupMember] (fun req =>
    try_catch
      (match req_group req with
       | None => throw TypeError
       | Some group =>
           let userId := req_userId req in
           let members' := filter (fun m => m ≠ userId) (members group) in
           let admins' := filter (fun m => m ≠ userId) (admins group) in
           let admins'' :=
             match admins', members' with
             | [], first :: _ => admins' ++ [first]
             | _, _ => admins'
             end in
           match members' with
           | [] =>
               Message_deleteMany_group (params_groupId req) ;;
               Group_findByIdAndDelete (params_groupId req) ;;
               mret (mkResponse 200 "Group deleted as no members remain")
           | _ :: _ =>
               Group_save (mkGroup (g_id group) (name group) members' admins'') ;;
               mret (mkResponse 200 "You have left the group")
           end
       end)
      respond_500).

(** [router.delete("/:groupId/admins/:memberId", ...)]. *)
Definition remove_admin_role : Request -> M Response :=
  route [groupExists; isGroupAdmin; preventLastAdminRemoval] (fun req =>
    try_catch
      (match req_group req with
       | None => throw TypeError
       | Some group =>
           let group :=
             mkGroup (g_id group) (name group) (members group)
               (filter (fun a => a ≠ params_memberId req) (admins group)) in
           Group_save group ;;
           group ← Group_populate group "members";
           group ← Group_populate group "admins";
           mret (mkResponse 200 "Admin role removed")
       end)
      respond_500).

(** The [members] field of a request body: absent (or another falsy
    value), a truthy value that is not an array, or an array. *)
Inductive MembersField :=
  | members_absent
  | members_not_array
  | members_array (l : list UserId).

(** [validateGroupData], on [req.body.name] and [req.body.members].  The
    lengths are those of [name.trim()] for a name of ASCII text
    ([is_ascii_text]). *)
Definition validateGroupData (name_ : option string) (members_ : MembersField)
  : Middleware := fun req =>
  if negb (required_string name_)
     || Nat.eqb (String.length (trim (default "" name_))) 0
  then mret (inl (mkResponse 400 "Group name is required"))
  else if Nat.ltb (String.length (trim (default "" name_))) 3
  then mret (inl (mkResponse 400 "Group name must be at least 3 characters"))
  else if Nat.ltb 50 (String.length (trim (default "" name_)))
  then mret (inl (mkResponse 400 "Group name must not exceed 50 characters"))
  else
    match members_ with
    | members_not_array => mret (inl (mkResponse 400 "Members must be an array"))
    | members_array [] =>
        mret (inl (mkResponse 400 "At least one member is required"))
    | _ => mret (inr req)
    end.

(** [/^[0-9a-fA-F]{24}$/.test(memberId)]. *)
Definition is_hex_digit (c : Ascii.ascii) : bool :=
  let n := Ascii.nat_of_ascii c in
  (Nat.leb 48 n && Nat.leb n 57)
  || (Nat.leb 65 n && Nat.leb n 70)
  || (Nat.leb 97 n && Nat.leb n 102).

Definition validObjectIdPattern (s : string) : bool :=
  Nat.eqb (String.length s) 24
  && forallb is_hex_digit (String.list_ascii_of_string s).

(** [[...new Set(members)]]: the first occurrence of each value, in order. *)
Fixpoint uniqueMembers (seen l : list UserId) : list UserId :=
  match l with
  | [] => []
  | x :: l' =>
      if existsb (String.eqb x) seen then uniqueMembers seen l'
      else x :: uniqueMembers (x :: seen) l'
  end.

(** [validateMembers], on [req.body.members]. *)
Definition validateMembers (members_ : MembersField) : Middleware := fun req =>
  match members_ with
  | members_array l =>
      match l with
      | [] => mret (inl (mkResponse 400 "At least one member is required"))
      | _ :: _ =>
          if negb (Nat.eqb (length (uniqueMembers [] l)) (length l))
          then mret (inl (mkResponse 400 "Duplicate members detected"))
          else
            match find (fun memberId => negb (validObjectIdPattern memberId)) l with
            | Some memberId =>
                mret (inl (mkResponse 400
                             (String.append "Invalid member ID format: " memberId)))
            | None => mret (inr req)
            end
      end
  | _ => mret (inl (mkResponse 400 "Members array is required"))
  end.

Definition MAX_GROUP_SIZE : nat := 100.

(** [checkGroupSizeLimit]: [members?.length || 0] is the number of entries
    of the body's array. *)
Definition checkGroupSizeLimit (members_ : MembersField) : Middleware :=
  fun req =>
  try_catch
    (group ← Group_findById (Some (params_groupId req));
     match group with
     | None => mret (inl (mkResponse 404 "Group not found"))
     | Some group =>
         let newTotalMembers :=
           length (members group)
           + match members_ with members_array l => length l | _ => 0 end in
         if Nat.ltb MAX_GROUP_SIZE newTotalMembers
         then mret (inl (mkResponse 400 "Group size limit exceeded. Maximum 100 members allowed."))
         else mret (inr (with_group req group))
     end)
    internal_error.

(** [canPromoteToAdmin]. *)
Definition canPromoteToAdmin : Middleware := fun req =>
  try_catch
    (group ← Group_findById (Some (params_groupId req));
     match group with
     | None => mret (inl (mkResponse 404 "Group not found"))
     | Some group =>
         if negb (existsb (fun m => String.eqb m (params_memberId req))
                    (members group))
         then mret (inl (mkResponse 400 "User is not a member of this group"))
         else if existsb (fun a => String.eqb a (params_memberId req))
                   (admins group)
         then mret (inl (mkResponse 400 "User is already an admin"))
         else mret (inr (with_group req group))
     end)
    internal_error.

(** The loop of the add-members route (lines 127-135).  The test compares
    the printed ids of the group, [id.toString()], with the submitted
    string as it is spelled; [members.push(memberId)] casts the string, so
    that the group holds the id in the spelling of [toString()].  The
    submitted strings have passed [validateMembers]: 24 hexadecimal
    digits. *)
Fixpoint push_new_members (current new_ : list UserId) : list UserId :=
  match new_ with
  | [] => current
  | memberId :: rest =>
      if existsb (fun m => String.eqb m memberId) current
      then push_new_members current rest
      else push_new_members (current ++ [castObjectId memberId]) rest
  end.

(** [router.post("/", ...)], lines 51-75: create a group.  [Group.create]
    casts the submitted strings, which have passed [validateMembers]: the
    group holds each id in the spelling of [toString()]. *)
Definition create (name_ : option string) (members_ : MembersField)
  : Request -> M Response :=
  route [validateGroupData name_ members_; validateMembers members_]
    (fun req =>
       try_catch
         (match members_ with
          | members_array l =>
              group ← Group_create (trim (default "" name_))
                        ((castObjectId <$> l) ++ [req_userId req])
                        [req_userId req];
              group ← Group_populate group "members";
              group ← Group_populate group "admins";
              mret (mkResponse 201 "Group created successfully")
          | _ => throw TypeError
          end)
         respond_500).

(** [router.post("/:groupId/members", ...)], lines 116-145. *)
Definition add_members (members_ : MembersField) : Request -> M Response :=
  route [groupExists; isGroupAdmin; validateMembers members_;
         checkGroupSizeLimit members_]
    (fun req =>
       try_catch
         (match req_group req, members_ with
          | Some group, members_array l =>
              let group :=
                mkGroup (g_id group) (name group)
                  (push_new_members (members group) l) (admins group) in
              Group_save group ;;
              group ← Group_populate group "members";
              group ← Group_populate group "admins";
              mret (mkResponse 200 "Members added successfully")
          | _, _ => throw TypeError
          end)
         respond_500).

(** [router.post("/:groupId/admins/:memberId", ...)], lines 259-279. *)
Definition make_admin : Request -> M Response :=
  route [groupExists; isGroupAdmin; canPromoteToAdmin] (fun req =>
    try_catch
      (match req_group req with
       | None => throw TypeError
       | Some group =>
           let group :=
             mkGroup (g_id group) (name group) (members group)
               (admins group ++ [params_memberId req]) in
           Group_save group ;;
           group ← Group_populate group "members";
           group ← Group_populate group "admins";
           mret (mkResponse 200 "User promoted to admin")
       end)
      respond_500).

(** [router.delete("/:groupId", ...)], lines 307-325. *)
Definition delete_group : Request -> M Response :=
  route [groupExists; isGroupAdmin] (fun req =>
    try_catch
      (Message_deleteMany_group (params_groupId req) ;;
       Group_findByIdAndDelete (params_groupId req) ;;
       mret (mkResponse 200 "Group deleted successfully"))
      respond_500).

(** [router.post("/:groupId/messages", ...)], lines 228-256. *)
Definition send_message (content_ messageType_ : option string)
  : Request -> M Response :=
  route [groupExists; isGroupMember] (fun req =>
    try_catch
      (if negb (required_string content_)
          || Nat.eqb (String.length (trim (default "" content_))) 0
       then mret (mkResponse 400 "Message content is required")
       else
         let message :=
           new_Message (Some (req_userId req)) None
             (Some (trim (default "" content_)))
             (or_default messageType_ "text")
             (Some (params_groupId req)) in
         message ← Message_save message;
         message ← Message_populate message "sender";
         mret (mkResponse 201 "message"))
      respond_500).

End GroupRoutes.

(** ** The REST route that sends a direct message (routes/messages.js) *)
Module MessageRoutes.

Record Body := mkBody {
  b_receiver : option UserId;
  b_content : option string;
  b_messageType : option string
}.

(** [router.post("/", authMiddleware, ...)], lines 30-55: the route
    refuses a body without [receiver] or without [content]. *)
Definition send (userId : UserId) (body : Body)
  : M GroupRoutes.Response :=
  try_catch
    (if negb (required_string (b_receiver body))
        || negb (required_string (b_content body))
     then mret (GroupRoutes.mkResponse 400 "Receiver and content are required")
     else
       let message :=
         new_Message (Some userId) (b_receiver body) (b_content body)
           (or_default (b_messageType body) "text") None in
       message ← Message_save message;
       message ← Message_populate message "sender";
       message ← Message_populate message "receiver";
       mret (GroupRoutes.mkResponse 201 "message"))
    GroupRoutes.respond_500.

(** [router.put("/read/:userId", ...)], lines 58-76: [sender] is the
    route parameter, [reader] the authenticated user. *)
Definition mark_read (reader : UserId) (sender : UserId)
  : M GroupRoutes.Response :=
  try_catch
    (Message_updateMany_read (Some sender) reader ;;
     mret (GroupRoutes.mkResponse 200 "Messages marked as read"))
    GroupRoutes.respond_500.



End MessageRoutes.

(** ** middleware/auth.js *)

Fixpoint strip_prefix (p s : string) : option string :=
  match p with
  | EmptyString => Some s
  | String a p' =>
      match s with
      | EmptyString => None
      | String b s' => if Ascii.eqb a b then strip_prefix p' s' else None
      end
  end.

(** [s.replace(p, "")]: the first occurrence of [p] is removed. *)
Fixpoint remove_first (p s : string) {struct s} : string :=
  match strip_prefix p s with
  | Some rest => rest
  | None =>
      match s with
      | EmptyString => EmptyString
      | String c s' => String c (remove_first p s')
      end
  end.

(** [authMiddleware(req, res, next)]: [authorization] is
    [req.header("Authorization")]; [inr user] is [next()] with [req.user]
    and [req.userId] bound.  The verifier of the environment stands for
    [jwt.verify] with the secret this module uses. *)
Definition authMiddleware (authorization : option string)
  : M (GroupRoutes.Response + User) :=
  try_catch
    (let token := remove_first "Bearer " <$> authorization in
     if required_string token then
       env ← get_env;
       match jwt_verify env (default "" token) with
       | None => throw JsonWebTokenError
       | Some decoded_userId =>
           user ← User_findById decoded_userId;
           match user with
           | None => mret (inl (GroupRoutes.mkResponse 401 "User not Found"))
           | Some u => mret (inr u)
           end
       end
     else mret (inl (GroupRoutes.mkResponse 401 "Authentication required")))
    (fun _ => mret (inl (GroupRoutes.mkResponse 401 "Invalid Token"))).


(** * Properties *)

(** ** Reading a trace *)

(** The delivery, echo and broadcast events of a message intent. *)
Definition is_fan_out (e : Effect) : bool :=
  match e with
  | Emit _ (receive_message _) => true
  | Emit _ (sent_message _) => true
  | Emit _ (receive_group_messsage _) => true
  | _ => false
  end.

Definition is_emit (e : Effect) : bool :=
  match e with Emit _ _ => true | _ => false end.

Definition is_saved (e : Effect) : bool :=
  match e with Db MessageSave true => true | _ => false end.

Definition is_save_attempt (e : Effect) : bool :=
  match e with Db MessageSave _ => true | _ => false end.

Definition is_receive_message (e : Effect) : bool :=
  match e with Emit _ (receive_message _) => true | _ => false end.

Definition is_sent_message (e : Effect) : bool :=
  match e with Emit _ (sent_message _) => true | _ => false end.

Definition is_receive_group_messsage (e : Effect) : bool :=
  match e with Emit _ (receive_group_messsage _) => true | _ => false end.

Definition is_connection_success (e : Effect) : bool :=
  match e with Emit _ (connection_success _ _ _) => true | _ => false end.

Definition is_unhandled (e : Effect) : bool :=
  match e with UnhandledRejection _ => true | _ => false end.

Definition emits (t : list Effect) : list Effect := List.filter is_emit t.

Definition count (p : Effect -> bool) (t : list Effect) : nat :=
  length (List.filter p t).

(** A scan of the trace: no fan-out event before a successful save. *)
Fixpoint fan_out_after_save (saved : bool) (t : list Effect) : bool :=
  match t with
  | [] => true
  | e :: t' =>
      (negb (is_fan_out e) || saved)
      && fan_out_after_save (saved || is_saved e) t'
  end.

(** The dispatch discipline of one message intent, read off the trace [t]
    of the invocation on the connection [socket]:
    - every fan-out event comes after the successful save;
    - a failed save leaves no fan-out event and exactly one emit, the error
      signal on the originating socket;
    - the save is attempted once at most and each fan-out event is emitted
      once at most. *)
Definition persist_then_fan_out (socket : Socket) (t : list Effect) : Prop :=
  (forall pre e post, t = pre ++ e :: post -> is_fan_out e = true ->
     Db MessageSave true ∈ pre)
  /\ (Db MessageSave false ∈ t ->
      count is_fan_out t = 0
      /\ emits t = [Emit (ToSocket (id socket))
                      (error_event "Failed to send message")])
  /\ (count is_save_attempt t <= 1
      /\ count is_receive_message t <= 1
      /\ count is_sent_message t <= 1
      /\ count is_receive_group_messsage t <= 1).

(** Is [uid] a member of the group [gid] in the Group collection? *)
Definition persisted_member (s : Store) (gid : option GroupId) (uid : UserId)
  : bool :=
  match gid with
  | Some gid =>
      match lookup_group s gid with
      | Some g => bool_decide (uid ∈ members g)
      | None => false
      end
  | None => false
  end.

(** The world with another room table. *)
Definition with_rooms (w : World) (rs : gmap string (gset SocketId)) : World :=
  mkWorld (onlineUsers w) (sockets w) rs (db w).

(** Empty content: absent, or nothing left once trimmed. *)
Definition content_is_empty (c : option string) : Prop :=
  match c with
  | Some s => trim s = ""
  | None => True
  end.

(** The bulk update of one [mark-read]. *)
Definition read_update (senderId : option UserId) (reader : UserId)
    (at_ : Date) (m : Message) : Message :=
  if unread_from_to senderId reader m then mark_as_read at_ m else m.

(** A computation that only edits the room table: it returns, records
    nothing, and leaves presence, sockets and database alone. *)
Definition quiet (m : M unit) : Prop :=
  forall env w,
    outcome (m env w) = Ok tt
    /\ effects (m env w) = []
    /\ onlineUsers (world (m env w)) = onlineUsers w
    /\ sockets (world (m env w)) = sockets w
    /\ db (world (m env w)) = db w.

(** An error was raised inside the invocation: the payload was undefined,
    or a store call (validation included) rejected. *)
Definition raised {A} (data : option A) (t : list Effect) : Prop :=
  data = None \/ exists c, Db c false ∈ t.

(** The error came out as one error signal on the originating socket, the
    only emit of the invocation; nothing escaped the listener and the
    connection is still registered. *)
Definition error_signalled (socket : Socket) (w : World) (r : Run unit)
  : Prop :=
  (exists msg,
     emits (effects r) = [Emit (ToSocket (id socket)) (error_event msg)])
  /\ count is_unhandled (effects r) = 0
  /\ sockets (world r) = sockets w
  /\ onlineUsers (world r) = onlineUsers w.

(** The error was caught and logged, and no client was told. *)
Definition error_logged_only (w : World) (r : Run unit) : Prop :=
  emits (effects r) = []
  /\ (exists label e, ConsoleError label e ∈ effects r)
  /\ count is_unhandled (effects r) = 0
  /\ sockets (world r) = sockets w
  /\ onlineUsers (world r) = onlineUsers w.

(** Exactly one of [receiver] and [group] is set. *)
Definition exactly_one_target (m : Message) : bool :=
  match receiver m, group m with
  | Some _, None => true
  | None, Some _ => true
  | _, _ => false
  end.

(** The room table after [socket.join] on each room of a list, in order. *)
Fixpoint join_all (sid : SocketId) (rs : gmap string (gset SocketId))
    (l : list string) : gmap string (gset SocketId) :=
  match l with
  | [] => rs
  | room :: l' =>
      join_all sid (<[room := {[sid]} ∪ room_members rs room]> rs) l'
  end.

(** No store call rejects. *)
Definition all_succeed (env : Env) : Prop := forall c, rejects env c = false.

(** ** A small scenario for the instances *)

Definition alice : Socket := mkSocket "s-alice" "A" "alice".
Definition bob : Socket := mkSocket "s-bob" "B" "bob".
Definition dave : Socket := mkSocket "s-dave" "D" "dave".

(** Alice, Bob and Dave are connected; the group g1 has the persisted
    members A, B and C with A as its only admin; Dave is not a member, yet
    his socket sits in the room of g1. *)
Definition world0 : World :=
  mkWorld
    [("A", "s-alice"); ("B", "s-bob"); ("D", "s-dave")]
    [alice; bob; dave]
    (<["g1" := {["s-alice"; "s-bob"; "s-dave"]}]>
       (<["s-alice" := {["s-alice"]}]>
          (<["s-bob" := {["s-bob"]}]> (<["s-dave" := {["s-dave"]}]> ∅))))
    (mkStore
       [mkMessage 1 (Some "A") (Some "B") (Some "hello") "text" false None None;
        mkMessage 2 (Some "A") (Some "C") (Some "for C") "text" false None None;
        mkMessage 3 (Some "A") None (Some "to all") "text" false None (Some "g1");
        mkMessage 4 (Some "A") None (Some "note") "text" false None (Some "g2")]
       [mkGroup "g1" "team" ["A"; "B"; "C"] ["A"];
        mkGroup "g2" "solo" ["A"] ["A"]]
       [mkUser "A" "alice" true None; mkUser "B" "bob" true None;
        mkUser "D" "dave" true None]).

Definition tokens (t : string) : option UserId :=
  if String.eqb t "token-of-A" then Some "A" else None.

(** The same people under ids spelled as ObjectIds are printed.  Alice and
    Bob are connected, Carol is not; Alice has written once to Bob and once
    to Carol. *)
Definition id_a : UserId := "aaaaaaaaaaaaaaaaaaaaaaaa".
Definition id_b : UserId := "bbbbbbbbbbbbbbbbbbbbbbbb".
Definition id_c : UserId := "cccccccccccccccccccccccc".

Definition alice1 : Socket := mkSocket "s-alice" id_a "alice".
Definition bob1 : Socket := mkSocket "s-bob" id_b "bob".

Definition world1 : World :=
  mkWorld
    [(id_a, "s-alice"); (id_b, "s-bob")]
    [alice1; bob1]
    (<["s-alice" := {["s-alice"]}]> (<["s-bob" := {["s-bob"]}]> ∅))
    (mkStore
       [mkMessage 1 (Some id_a) (Some id_b) (Some "hello") "text" false None None;
        mkMessage 2 (Some id_a) (Some id_c) (Some "for C") "text" false None None]
       [mkGroup "111111111111111111111111" "team" [id_a; id_b] [id_a]]
       [mkUser id_a "alice" true None; mkUser id_b "bob" true None;
        mkUser id_c "carol" false None]).

(** Every store call succeeds. *)
Definition env_ok : Env := mkEnv (fun _ => false) 1000 "g9" tokens.

(** The store call [c] rejects, every other one succeeds. *)
Definition env_rejecting (c : StoreCall) : Env :=
  mkEnv (fun c' => bool_decide (c' = c)) 1000 "g9" tokens.

(** ** Proof tools *)

Lemma is_saved_spec e : is_saved e = true -> e = Db MessageSave true.
Proof.
  destruct e as [c ok| | |]; try discriminate.
  destruct c, ok; try discriminate. done.
Qed.

Lemma fan_out_after_save_sound t : forall saved pre e post,
  fan_out_after_save saved t = true ->
  t = pre ++ e :: post -> is_fan_out e = true ->
  saved = true \/ Db MessageSave true ∈ pre.
Proof.
  induction t as [|x t IH]; intros saved pre e post Hc Heq He.
  - destruct pre; discriminate.
  - simpl in Hc. apply andb_true_iff in Hc as [Hx Ht].
    destruct pre as [|y pre]; simpl in Heq; inversion Heq; subst.
    + rewrite He in Hx. simpl in Hx. by left.
    + destruct (IH _ _ _ _ Ht eq_refl He) as [Hs | Hin].
      * apply orb_true_iff in Hs as [Hs | Hs]; [by left|].
        right. apply is_saved_spec in Hs. subst. by left.
      * right. by right.
Qed.

(** Unfolding one invocation down to the store calls it makes. *)
Ltac unfold_run :=
  cbv [on_send_message on_mark_read on_send_group_message on_leave_group
       on_disconnect on_create_group listener not_awaited try_catch
       mbind M_bind mret M_ret throw
       Message_save Message_populate Message_updateMany_read Group_findById
       Group_create Group_populate Group_findByIdAndUpdate_pull_member
       User_findByIdAndUpdate socket_join socket_leave
       emit_if_online emit console_error effect store_call modify_db
       modify_onlineUsers get_world put_world get_env
       outcome world effects].

(** Case analysis on what the invocation reads from outside. *)
Ltac run_case :=
  match goal with
  | |- context [rejects ?e ?c] => destruct (rejects e c) eqn:?
  | |- context [validate_Message ?m] => destruct (validate_Message m) eqn:?
  | |- context [Map_get_opt ?m ?k] => destruct (Map_get_opt m k) eqn:?
  | |- context [truthy ?s] => destruct (truthy s) eqn:?
  | |- context [lookup_group ?s ?g] => destruct (lookup_group s g) eqn:?
  | |- context [bool_decide ?P] => destruct (bool_decide P) eqn:?
  end; simpl.

Ltac trace_order :=
  let pre := fresh "pre" in let e := fresh "e" in let post := fresh "post" in
  let Heq := fresh in let He := fresh in let H := fresh in
  intros pre e post Heq He;
  unshelve epose proof
    (fan_out_after_save_sound _ false pre e post _ Heq He) as H;
  [ reflexivity | destruct H as [H|H]; [discriminate H | exact H] ].

(** Membership in an explicit trace, refuted or used up case by case. *)
Ltac trace_member :=
  let Hin := fresh in
  intros Hin;
  repeat (apply elem_of_cons in Hin as [Hin|Hin]; [try discriminate Hin|]);
  try (by apply elem_of_nil in Hin).

Ltac discipline :=
  unfold persist_then_fan_out, count, emits;
  split; [ trace_order
         | split; [ trace_member; simpl; split; reflexivity
                  | simpl; repeat split; lia ] ].

Lemma send_message_discipline socket data env w :
  persist_then_fan_out socket (effects (on_send_message socket data env w)).
Proof.
  unfold_run. destruct data as [data|]; simpl.
  - repeat run_case; discipline.
  - discipline.
Qed.

Lemma send_group_message_discipline socket data env w :
  persist_then_fan_out socket
    (effects (on_send_group_message socket data env w)).
Proof.
  unfold_run. destruct data as [data|]; simpl.
  - destruct (groupId data) as [gid|]; simpl; repeat run_case; discipline.
  - discipline.
Qed.

(** ** Message dispatch *)

(** C1.  For every message intent, direct or group, handled on a live
    connection: every delivery, echo or broadcast event of the invocation
    comes after the successful save of the message record; when the save
    fails there is no fan-out event at all and the only emit is one error
    signal on the originating socket; the save and each fan-out event occur
    at most once. *)
Theorem persistence_precedes_fan_out (socket : Socket) (env : Env) (w : World) :
  (forall data : option SendMessage,
     persist_then_fan_out socket
       (effects (on_send_message socket data env w)))
  /\ (forall data : option SendGroupMessage,
        persist_then_fan_out socket
          (effects (on_send_group_message socket data env w))).
Proof.
  split; intros data.
  - apply send_message_discipline.
  - apply send_group_message_discipline.
Qed.

Lemma persistence_precedes_fan_out_witness :
  let t := effects (on_send_message alice
                      (Some (mkSendMessage (Some "B") (Some "hi") None))
                      (env_rejecting MessageSave) world0) in
  count is_fan_out t = 0
  /\ emits t = [Emit (ToSocket "s-alice")
                  (error_event "Failed to send message")].
Proof.
  destruct (persistence_precedes_fan_out alice (env_rejecting MessageSave)
              world0) as [Hdirect _].
  destruct (Hdirect (Some (mkSendMessage (Some "B") (Some "hi") None)))
    as (_ & Hfail & _).
  apply Hfail. vm_compute. apply list_elem_of_here.
Defined.

(** C7.  A [send-message] intent whose content is empty (absent, or empty
    once trimmed) is rejected by the validation of the save with
    [ValidationError]: nothing is persisted, the world is unchanged, and
    the only emit is the error signal on the originating socket, so no
    delivery and no echo. *)
Theorem empty_content_rejected (socket : Socket) (data : SendMessage)
    (env : Env) (w : World) :
  content_is_empty (sm_content data) ->
  let r := on_send_message socket (Some data) env w in
  world r = w
  /\ effects r =
       [Db MessageSave false;
        ConsoleError "Error sending message:" ValidationError;
        Emit (ToSocket (id socket)) (error_event "Failed to send message")].
Proof.
  intros Hempty.
  assert (Hv : validate_Message
                 (new_Message (Some (userId socket)) (receiverId data)
                    (sm_content data)
                    (or_default (sm_messageType data) "text") None) = false).
  { unfold validate_Message, new_Message; simpl.
    destruct (sm_content data) as [s|]; simpl in *.
    - rewrite Hempty. reflexivity.
    - done. }
  unfold_run. rewrite Hv. simpl. done.
Qed.

Lemma empty_content_rejected_witness :
  let r := on_send_message alice
             (Some (mkSendMessage (Some "B") (Some "   ") None)) env_ok world0 in
  world r = world0
  /\ effects r =
       [Db MessageSave false;
        ConsoleError "Error sending message:" ValidationError;
        Emit (ToSocket "s-alice") (error_event "Failed to send message")].
Proof.
  apply (empty_content_rejected alice
           (mkSendMessage (Some "B") (Some "   ") None) env_ok world0).
  vm_compute. reflexivity.
Defined.

(** C2.  A [send-group-message] intent whose sender is not a member of the
    target group in the Group collection changes nothing in the world (no
    message record is written, no save is even attempted), emits no fan-out
    event, and its only emit is an error signal on the originating socket.
    The verdict reads the persisted group, not the rooms: the trace is the
    same under every room table, also one that has the sender's socket in
    the group's room. *)
Theorem non_member_rejected (socket : Socket) (data : SendGroupMessage)
    (env : Env) (w : World) :
  persisted_member (db w) (groupId data) (userId socket) = false ->
  let r := on_send_group_message socket (Some data) env w in
  world r = w
  /\ count is_save_attempt (effects r) = 0
  /\ count is_fan_out (effects r) = 0
  /\ (exists msg,
        emits (effects r) = [Emit (ToSocket (id socket)) (error_event msg)])
  /\ (forall rs,
        effects (on_send_group_message socket (Some data) env (with_rooms w rs))
        = effects r).
Proof.
  intros Hnot. unfold persisted_member in Hnot.
  unfold_run. unfold with_rooms. simpl.
  destruct (groupId data) as [gid|]; simpl.
  - destruct (rejects env GroupFindById) eqn:Hfind; simpl.
    + repeat split; eauto.
    + destruct (lookup_group (db w) gid) as [g|] eqn:Hg; simpl.
      * rewrite Hnot. simpl. repeat split; eauto.
      * repeat split; eauto.
  - destruct (rejects env GroupFindById) eqn:Hfind; simpl;
      repeat split; eauto.
Qed.

Lemma non_member_rejected_witness :
  let r := on_send_group_message dave
             (Some (mkSendGroupMessage (Some "g1") (Some "hi") None))
             env_ok world0 in
  "s-dave" ∈ room_members (rooms world0) "g1"
  /\ world r = world0
  /\ count is_fan_out (effects r) = 0
  /\ emits (effects r) =
       [Emit (ToSocket "s-dave")
          (error_event "You are not a member of this group")].
Proof.
  pose proof (non_member_rejected dave
                (mkSendGroupMessage (Some "g1") (Some "hi") None)
                env_ok world0) as H.
  simpl in H. destruct H as (Hw & _ & Hf & _ & _).
  - vm_compute. reflexivity.
  - split; [vm_compute; set_solver|].
    split; [exact Hw|]. split; [exact Hf|]. vm_compute. reflexivity.
Defined.

(** ** Read receipts *)

Lemma mark_read_run_ok socket data env w :
  rejects env MessageUpdateMany = false ->
  let r := on_mark_read socket (Some data) env w in
  outcome r = Ok tt
  /\ world r =
       mkWorld (onlineUsers w) (sockets w) (rooms w)
         (mkStore (read_update (senderId data) (userId socket) (now env)
                     <$> messages (db w))
                  (groups (db w)) (users (db w)))
  /\ effects r =
       Db MessageUpdateMany true ::
       match Map_get_opt (onlineUsers w) (senderId data) with
       | Some sid =>
           if truthy sid
           then [Emit (ToRoom sid) (messages_read (userId socket))]
           else []
       | None => []
       end.
Proof.
  intros Hok. unfold_run. rewrite Hok. simpl.
  destruct (Map_get_opt (onlineUsers w) (senderId data)) as [sid|]; simpl.
  - destruct (truthy sid); simpl; done.
  - done.
Qed.








(** ** Connection lifecycle *)

Lemma quiet_ret : quiet (mret tt).
Proof. intros env w. cbv. done. Qed.

Lemma quiet_socket_join sid room : quiet (socket_join sid room).
Proof. intros env w. cbv -[room_members insert union singleton]. done. Qed.

Lemma quiet_seq (m : M unit) (k : M unit) :
  quiet m -> quiet k -> quiet (m ;; k).
Proof.
  intros Hm Hk env w. specialize (Hm env w).
  unfold mbind, M_bind. destruct (m env w) as [o w1 t1]. simpl in Hm.
  destruct Hm as (-> & -> & Ho & Hs & Hd).
  specialize (Hk env w1). destruct (k env w1) as [o2 w2 t2]. simpl in *.
  destruct Hk as (-> & -> & Ho2 & Hs2 & Hd2).
  repeat split; congruence.
Qed.

Lemma quiet_forEach {A} (l : list A) (f : A -> M unit) :
  (forall x, quiet (f x)) -> quiet (forEach l f).
Proof.
  intros Hf. induction l as [|x l IH]; simpl.
  - apply quiet_ret.
  - apply quiet_seq; [apply Hf | exact IH].
Qed.

Lemma quiet_run (m : M unit) env w :
  quiet m ->
  exists w', m env w = mkRun (Ok tt) w' []
             /\ onlineUsers w' = onlineUsers w
             /\ sockets w' = sockets w
             /\ db w' = db w.
Proof.
  intros Hq. specialize (Hq env w). destruct (m env w) as [o w' t].
  simpl in Hq. destruct Hq as (-> & -> & ? & ? & ?). eauto.
Qed.

(** The run of the [connection] handler: it always reaches its last
    statement, the broadcast of [connection-success]. *)
Lemma on_connection_run socket env w :
  let r := on_connection socket env w in
  outcome r = Ok tt
  /\ sockets (world r) = sockets w
  /\ onlineUsers (world r) = Map_set (onlineUsers w) (userId socket) (id socket)
  /\ List.filter is_connection_success (effects r) =
       [Emit ToAll
          (connection_success "Successfully connected to the socket server"
             (userId socket) (username socket))]
  /\ Emit ToAll
       (online_users
          (Map_keys (Map_set (onlineUsers w) (userId socket) (id socket))))
     ∈ effects r.
Proof.
  cbv [on_connection listener not_awaited try_catch mbind M_bind mret M_ret
       Group_find_members User_findByIdAndUpdate modify_onlineUsers modify_db
       store_call get_world put_world get_env emit console_error effect
       getOnlineUsers].
  simpl.
  destruct (rejects env GroupFind) eqn:Hfind; simpl.
  - destruct (rejects env UserFindByIdAndUpdate) eqn:Hupd; simpl.
    all: repeat split; try reflexivity; set_solver.
  - match goal with
    | |- context [forEach ?l ?f env ?w1] =>
        destruct (quiet_run (forEach l f) env w1) as (w' & -> & Ho & Hs & Hd);
        [ apply quiet_forEach; intros g; apply quiet_socket_join | ]
    end.
    simpl in *.
    destruct (rejects env UserFindByIdAndUpdate) eqn:Hupd; simpl.
    all: rewrite ?Ho, ?Hs; repeat split; try reflexivity; set_solver.
Qed.

(** The run of a sequence, from the run of its first part. *)
Lemma bind_run {A B} (m : M A) (f : A -> M B) env w :
  (m ≫= f) env w =
  match m env w with
  | mkRun (Ok a) w1 t1 =>
      mkRun (outcome (f a env w1)) (world (f a env w1))
        (t1 ++ effects (f a env w1))
  | mkRun (Throw e) w1 t1 => mkRun (Throw e) w1 t1
  end.
Proof.
  unfold mbind, M_bind. destruct (m env w) as [[a|e] w1 t1]; [|reflexivity].
  destruct (f a env w1); reflexivity.
Qed.

(** The middleware always answers, touches nothing and emits nothing. *)
Lemma socketAuthMiddleware_run sid token env w :
  exists res t,
    socketAuthMiddleware sid token env w = mkRun (Ok res) w t
    /\ List.filter is_connection_success t = []
    /\ (forall s, res = inr s -> id s = sid).
Proof.
  cbv [socketAuthMiddleware try_catch mbind M_bind mret M_ret throw
       User_findById store_call get_env get_world].
  destruct (required_string token); simpl; [|eexists _, _; split; [reflexivity|split; [reflexivity|intros ? [=]]]].
  destruct (jwt_verify env (default "" token)) as [uid|]; simpl;
    [|eexists _, _; split; [reflexivity|split; [reflexivity|intros ? [=]]]].
  destruct (rejects env UserFindById); simpl;
    [eexists _, _; split; [reflexivity|split; [reflexivity|intros ? [=]]]|].
  destruct (lookup_user (db w) uid) as [u|]; simpl;
    eexists _, _; (split; [reflexivity|split; [reflexivity|]]).
  - intros s [= <-]. reflexivity.
  - intros ? [=].
Qed.

Lemma io_register_run socket env w :
  io_register socket env w =
  mkRun (Ok tt)
    (mkWorld (onlineUsers w) (sockets w ++ [socket])
       (<[id socket := {[id socket]} ∪ room_members (rooms w) (id socket)]>
          (rooms w))
       (db w))
    [].
Proof. reflexivity. Qed.

(** C9.  After an accepted handshake the [connection-success] event, with
    the fixed text and the new user's [userId] and [username], is emitted
    exactly once and with [io.emit]: it is addressed to all, and its
    recipients are the sockets of every client connected at that moment,
    those connected before as well as the new one. *)
Theorem connection_success_is_broadcast (sid : SocketId)
    (token : option string) (env : Env) (w : World) (socket : Socket) :
  let r := handshake sid token env w in
  outcome r = Ok (inr socket) ->
  List.filter is_connection_success (effects r) =
    [Emit ToAll
       (connection_success "Successfully connected to the socket server"
          (userId socket) (username socket))]
  /\ sockets (world r) = sockets w ++ [socket]
  /\ (forall s, s ∈ sockets w ++ [socket] ->
        id s ∈ recipients (world r) ToAll).
Proof.
  intros r. subst r. unfold handshake. rewrite bind_run.
  destruct (socketAuthMiddleware_run sid token env w)
    as (res & t1 & -> & Ht1 & _).
  destruct res as [msg|s]; [intros [=]|].
  rewrite bind_run, io_register_run, bind_run.
  match goal with
  | |- context [on_connection s env ?w2] =>
      pose proof (on_connection_run s env w2) as (Hok & Hs & _ & Hcs & _);
      destruct (on_connection s env w2) as [o3 w3 t3]
  end.
  cbn [outcome world effects sockets] in *. subst o3.
  cbn [mret M_ret outcome world effects app].
  intros [= <-].
  split.
  - rewrite List.filter_app, Ht1, List.filter_app, Hcs. reflexivity.
  - rewrite Hs. split; [reflexivity|].
    intros x Hin. apply elem_of_list_to_set.
    apply list_elem_of_fmap. exists x. rewrite Hs. done.
Qed.

(** Alice's second device connects while Alice, Bob and Dave are online:
    Bob's socket is among the recipients of the event. *)
Lemma connection_success_is_broadcast_witness :
  let r := handshake "s-new" (Some "token-of-A") env_ok world0 in
  List.filter is_connection_success (effects r) =
    [Emit ToAll
       (connection_success "Successfully connected to the socket server"
          "A" "alice")]
  /\ "s-bob" ∈ recipients (world r) ToAll.
Proof.
  destruct (connection_success_is_broadcast "s-new" (Some "token-of-A")
              env_ok world0 (mkSocket "s-new" "A" "alice"))
    as (Hcs & _ & Hall).
  - vm_compute. reflexivity.
  - split; [exact Hcs|].
    apply (Hall bob). vm_compute. set_solver.
Defined.

Lemma Map_get_delete (m : PresenceMap) (k : UserId) :
  Map_get (Map_delete m k) k = None.
Proof.
  induction m as [|[k' v] m IH]; simpl; [reflexivity|].
  destruct (String.eqb k' k) eqn:Hk; simpl; [exact IH|].
  rewrite Hk. exact IH.
Qed.

Lemma Map_keys_delete (m : PresenceMap) (k : UserId) :
  k ∉ Map_keys (Map_delete m k).
Proof.
  induction m as [|[k' v] m IH]; simpl; [apply not_elem_of_nil|].
  destruct (String.eqb k' k) eqn:Hk; simpl; [exact IH|].
  apply not_elem_of_cons. split; [|exact IH].
  intros ->. by rewrite String.eqb_refl in Hk.
Qed.

(** The [disconnect] listener when the write to the User store succeeds:
    presence entry removed, offline flag and last-seen time written, the
    remaining identities broadcast. *)
Lemma disconnect_run_ok socket env w :
  rejects env UserFindByIdAndUpdate = false ->
  let r := on_disconnect socket env w in
  Map_get (onlineUsers (world r)) (userId socket) = None
  /\ effects r =
       [Db UserFindByIdAndUpdate true;
        Emit ToAll
          (online_users (Map_keys (Map_delete (onlineUsers w) (userId socket))))].
Proof.
  intros Hok. unfold_run. unfold getOnlineUsers. rewrite Hok. simpl.
  split; [apply Map_get_delete | reflexivity].
Qed.

(** C3.  The [disconnect] listener awaits the write to the User store
    outside any [try]: when that write rejects, the presence entry is
    already removed and the write has been issued, but the listener stops
    there.  The rejection escapes the listener (the process-wide hook logs
    it) and the [online-users] broadcast is never emitted. *)
Theorem disconnect_write_failure_skips_broadcast (socket : Socket)
    (env : Env) (w : World) :
  rejects env UserFindByIdAndUpdate = true ->
  let r := on_disconnect socket env w in
  Map_get (onlineUsers (world r)) (userId socket) = None
  /\ effects r =
       [Db UserFindByIdAndUpdate false; UnhandledRejection StoreError]
  /\ emits (effects r) = [].
Proof.
  intros Hrej. unfold_run. rewrite Hrej. simpl.
  split; [apply Map_get_delete|]. split; reflexivity.
Qed.

Lemma disconnect_write_failure_skips_broadcast_witness :
  let r := on_disconnect bob (env_rejecting UserFindByIdAndUpdate) world0 in
  Map_get (onlineUsers (world r)) "B" = None
  /\ effects r =
       [Db UserFindByIdAndUpdate false; UnhandledRejection StoreError]
  /\ emits (effects r) = [].
Proof.
  apply (disconnect_write_failure_skips_broadcast bob
           (env_rejecting UserFindByIdAndUpdate) world0).
  vm_compute. reflexivity.
Defined.

(** ** Errors at the handler boundary *)

Lemma quiet_join_member room memberId : quiet (join_member room memberId).
Proof.
  intros env w. unfold join_member.
  cbv [mbind M_bind get_world]. simpl.
  destruct (Map_get (onlineUsers w) memberId) as [s|]; [|by cbv].
  destruct (truthy s); [|by cbv].
  destruct (find _ (sockets w)) as [ms|]; [|by cbv].
  pose proof (quiet_socket_join (id ms) room env w) as Hq.
  destruct (socket_join (id ms) room env w). exact Hq.
Qed.

Ltac no_rejection H :=
  destruct H as [H | [? H]]; [discriminate H|];
  repeat (apply elem_of_cons in H as [H|H]; [try discriminate H|]);
  try (by apply elem_of_nil in H).

Ltac signalled :=
  unfold error_signalled, error_logged_only, count, emits; simpl;
  repeat split; eauto using list_elem_of_here, list_elem_of_further.

Lemma send_message_errors socket data env w :
  let r := on_send_message socket data env w in
  raised data (effects r) -> error_signalled socket w r.
Proof.
  unfold_run. destruct data as [data|]; simpl.
  - repeat run_case; intros H; try (no_rejection H); signalled.
  - intros _. signalled.
Qed.

Lemma send_group_message_errors socket data env w :
  let r := on_send_group_message socket data env w in
  raised data (effects r) -> error_signalled socket w r.
Proof.
  unfold_run. destruct data as [data|]; simpl.
  - destruct (groupId data) as [gid|]; simpl;
      repeat run_case; intros H; try (no_rejection H); signalled.
  - intros _. signalled.
Qed.

Lemma mark_read_errors socket data env w :
  let r := on_mark_read socket data env w in
  raised data (effects r) -> error_logged_only w r.
Proof.
  unfold_run. destruct data as [data|]; simpl.
  - repeat run_case; intros H; try (no_rejection H); signalled.
  - intros _. signalled.
Qed.

Lemma create_group_errors socket data env w :
  let r := on_create_group socket (Some data) env w in
  raised (Some data) (effects r) -> error_signalled socket w r.
Proof.
  unfold_run. simpl.
  destruct (cg_members data) as [ms|]; simpl.
  - destruct (required_string (cg_name data)); simpl.
    + destruct (rejects env GroupCreate) eqn:?; simpl;
        [intros _; signalled|].
      destruct (rejects env (GroupPopulate "members")) eqn:?; simpl;
        [intros _; signalled|].
      destruct (rejects env (GroupPopulate "admins")) eqn:?; simpl;
        [intros _; signalled|].
      match goal with
      | |- context [forEach ?l ?f env ?w1] =>
          destruct (quiet_run (forEach l f) env w1)
            as (w' & -> & Ho & Hs & Hd);
          [apply quiet_forEach; intros; apply quiet_join_member|]
      end.
      simpl. intros H. no_rejection H.
    + intros H. no_rejection H.
  - intros H. no_rejection H.
Qed.

(** C4, as the code has it.  An error raised inside [send-message],
    [send-group-message] or [create-group] (payload present) is caught by
    the listener's [try] and comes out as exactly one error signal, on the
    originating socket only; nothing escapes the listener and the
    connection stays registered.  An error raised inside [mark-read] is
    caught and logged, and no signal is sent to any client. *)
Theorem errors_caught_at_boundary (socket : Socket) (env : Env) (w : World) :
  (forall data : option SendMessage,
     let r := on_send_message socket data env w in
     raised data (effects r) -> error_signalled socket w r)
  /\ (forall data : option SendGroupMessage,
        let r := on_send_group_message socket data env w in
        raised data (effects r) -> error_signalled socket w r)
  /\ (forall data : CreateGroup,
        let r := on_create_group socket (Some data) env w in
        raised (Some data) (effects r) -> error_signalled socket w r)
  /\ (forall data : option MarkRead,
        let r := on_mark_read socket data env w in
        raised data (effects r) -> error_logged_only w r).
Proof.
  split; [intros data; apply send_message_errors|].
  split; [intros data; apply send_group_message_errors|].
  split; [intros data; apply create_group_errors|].
  intros data; apply mark_read_errors.
Qed.

Lemma errors_caught_at_boundary_witness :
  error_signalled alice world0
    (on_send_message alice (Some (mkSendMessage (Some "B") (Some "hi") None))
       (env_rejecting (MessagePopulate "receiver")) world0)
  /\ error_logged_only world0
       (on_mark_read bob (Some (mkMarkRead (Some "A")))
          (env_rejecting MessageUpdateMany) world0).
Proof.
  destruct (errors_caught_at_boundary alice
              (env_rejecting (MessagePopulate "receiver")) world0)
    as (Hsend & _).
  destruct (errors_caught_at_boundary bob
              (env_rejecting MessageUpdateMany) world0)
    as (_ & _ & _ & Hread).
  split.
  - apply (Hsend (Some (mkSendMessage (Some "B") (Some "hi") None))).
    right. exists (MessagePopulate "receiver"). vm_compute.
    apply list_elem_of_further, list_elem_of_further, list_elem_of_here.
  - apply (Hread (Some (mkMarkRead (Some "A")))).
    right. exists MessageUpdateMany. vm_compute. apply list_elem_of_here.
Defined.

(** The claim C4 as stated fails on [mark-read]: the bulk update rejects,
    the error is raised inside the handler, and no error signal reaches
    the originating connection (nothing is emitted at all). *)
Lemma mark_read_error_not_signalled :
  let data := Some (mkMarkRead (Some "A")) in
  let r := on_mark_read bob data (env_rejecting MessageUpdateMany) world0 in
  raised data (effects r) /\ ~ error_signalled bob world0 r.
Proof.
  split.
  - right. exists MessageUpdateMany. vm_compute. apply list_elem_of_here.
  - intros ((msg & Hemit) & _). vm_compute in Hemit. discriminate Hemit.
Qed.

(** The [leave-group] listener has no [try] at all: a rejected update
    escapes it. *)
Lemma leave_group_error_escapes socket gid env w :
  rejects env GroupFindByIdAndUpdate = true ->
  effects (on_leave_group socket (Some gid) env w) =
    [Db GroupFindByIdAndUpdate false; UnhandledRejection StoreError].
Proof. intros Hrej. unfold_run. rewrite Hrej. reflexivity. Qed.

(** ** The target of a persisted message *)



(** C5.  On the direct path the handler passes the payload's [receiverId]
    on as it is and the schema requires nothing of [receiver]: an intent
    without [receiverId] that is otherwise valid is saved, and the saved
    record has neither [receiver] nor [group] set. *)
Theorem direct_message_without_receiver (socket : Socket)
    (data : SendMessage) (env : Env) (w : World) :
  receiverId data = None ->
  validate_Message
    (new_Message (Some (userId socket)) None (sm_content data)
       (or_default (sm_messageType data) "text") None) = true ->
  rejects env MessageSave = false ->
  let r := on_send_message socket (Some data) env w in
  exists m,
    messages (db (world r)) = messages (db w) ++ [m]
    /\ receiver m = None /\ group m = None
    /\ exactly_one_target m = false.
Proof.
  intros Hnone Hvalid Hok. unfold_run. simpl.
  rewrite Hnone, Hvalid. simpl. rewrite Hok. simpl.
  eexists. repeat run_case; repeat split; reflexivity.
Qed.

Lemma direct_message_without_receiver_witness :
  let r := on_send_message alice (Some (mkSendMessage None (Some "hi") None))
             env_ok world0 in
  exists m,
    messages (db (world r)) = messages (db world0) ++ [m]
    /\ receiver m = None /\ group m = None
    /\ exactly_one_target m = false.
Proof.
  apply (direct_message_without_receiver alice
           (mkSendMessage None (Some "hi") None) env_ok world0);
    vm_compute; reflexivity.
Defined.

(** The REST route for the same intent refuses a body without [receiver]
    before anything is written. *)
Lemma rest_send_requires_receiver userId body env w :
  MessageRoutes.b_receiver body = None ->
  MessageRoutes.send userId body env w =
    mkRun (Ok (GroupRoutes.mkResponse 400 "Receiver and content are required"))
      w [].
Proof.
  intros Hnone. unfold MessageRoutes.send.
  cbv [try_catch mbind M_bind mret M_ret]. rewrite Hnone. reflexivity.
Qed.

(** ** Leaving a group *)

Lemma lookup_update_group (s : Store) (gid : GroupId) (f : Group -> Group)
    (g : Group) :
  (forall g, g_id (f g) = g_id g) ->
  lookup_group s gid = Some g ->
  lookup_group (update_group gid f s) gid = Some (f g).
Proof.
  intros Hid. unfold lookup_group, update_group. simpl.
  induction (groups s) as [|x l IH]; simpl; [discriminate|].
  destruct (bool_decide (g_id x = gid)) eqn:Hx; simpl.
  - intros [= ->]. rewrite Hid, Hx. reflexivity.
  - rewrite Hx. exact IH.
Qed.

(** C8.  The [leave-group] listener does one thing to the persisted group:
    it pulls the leaving user out of [members].  The admins are left as
    they are (the leaving user stays listed, nobody is promoted), the group
    document stays even with no member left, and no message is deleted. *)
Theorem socket_leave_group_only_pulls_member (socket : Socket)
    (gid : GroupId) (env : Env) (w : World) (g : Group) :
  rejects env GroupFindByIdAndUpdate = false ->
  lookup_group (db w) gid = Some g ->
  let r := on_leave_group socket (Some gid) env w in
  lookup_group (db (world r)) gid =
    Some (mkGroup (g_id g) (name g)
            (filter (fun m => m ≠ userId socket) (members g)) (admins g))
  /\ messages (db (world r)) = messages (db w)
  /\ effects r = [Db GroupFindByIdAndUpdate true].
Proof.
  intros Hok Hg. unfold_run. rewrite Hok. simpl.
  split; [|split; reflexivity].
  by apply (lookup_update_group (db w) gid
              (fun g => mkGroup (g_id g) (name g)
                          (filter (fun m => m ≠ userId socket) (members g))
                          (admins g))).
Qed.

(** Alice, the only member and only admin of g2, leaves over the socket:
    the group is still there, with no member and Alice as admin, and its
    message is still stored. *)
Lemma socket_leave_group_only_pulls_member_witness :
  let r := on_leave_group alice (Some "g2") env_ok world0 in
  lookup_group (db (world r)) "g2" = Some (mkGroup "g2" "solo" [] ["A"])
  /\ messages (db (world r)) = messages (db world0).
Proof.
  destruct (socket_leave_group_only_pulls_member alice "g2" env_ok world0
              (mkGroup "g2" "solo" ["A"] ["A"])) as (Hg & Hm & _).
  - reflexivity.
  - vm_compute. reflexivity.
  - split; [|exact Hm]. etransitivity; [exact Hg|]. vm_compute. reflexivity.
Defined.

(** The same departure through the REST route deletes the group and its
    messages. *)
Example rest_leave_deletes_empty_group :
  let r := GroupRoutes.leave (GroupRoutes.mkRequest "A" "g2" "" None)
             env_ok world0 in
  outcome r =
    Ok (GroupRoutes.mkResponse 200 "Group deleted as no members remain")
  /\ lookup_group (db (world r)) "g2" = None
  /\ filter (fun m => group m = Some "g2") (messages (db (world r))) = [].
Proof. vm_compute. repeat split; reflexivity. Qed.

(** Alice, the only admin of g1, leaves through the REST route: the first
    remaining member becomes admin.  Over the socket she stays admin. *)
Example rest_leave_reassigns_admin :
  lookup_group
    (db (world (GroupRoutes.leave (GroupRoutes.mkRequest "A" "g1" "" None)
                  env_ok world0))) "g1"
  = Some (mkGroup "g1" "team" ["B"; "C"] ["B"])
  /\ lookup_group
       (db (world (on_leave_group alice (Some "g1") env_ok world0))) "g1"
     = Some (mkGroup "g1" "team" ["B"; "C"] ["A"]).
Proof. vm_compute. split; reflexivity. Qed.

(** Taking the admin role from the only admin, and removing an admin as a
    member, are both refused by the REST middleware. *)
Example rest_last_admin_kept :
  outcome (GroupRoutes.remove_admin_role
             (GroupRoutes.mkRequest "A" "g1" "A" None) env_ok world0)
  = Ok (GroupRoutes.mkResponse 400
          "Cannot remove the last admin. Promote another member to admin first.")
  /\ outcome (GroupRoutes.remove_member
                (GroupRoutes.mkRequest "A" "g1" "A" None) env_ok world0)
     = Ok (GroupRoutes.mkResponse 400
             "Cannot remove admin. Remove admin role first.").
Proof. vm_compute. split; reflexivity. Qed.

(** * Further properties of the code *)

(** ** The presence map *)

Lemma Map_get_set_eq (m : PresenceMap) k v : Map_get (Map_set m k v) k = Some v.
Proof.
  induction m as [|[k' v'] m IH]; simpl.
  - by rewrite String.eqb_refl.
  - destruct (String.eqb k' k) eqn:Hk; simpl; rewrite Hk; [reflexivity|exact IH].
Qed.

Lemma Map_get_set_ne (m : PresenceMap) k k' v :
  k <> k' -> Map_get (Map_set m k v) k' = Map_get m k'.
Proof.
  intros Hne. induction m as [|[k0 v0] m IH]; simpl.
  - destruct (String.eqb k k') eqn:Hk; [|reflexivity].
    apply String.eqb_eq in Hk. contradiction.
  - destruct (String.eqb k0 k) eqn:Hk; simpl.
    + apply String.eqb_eq in Hk. subst k0.
      destruct (String.eqb k k') eqn:Hk'; [|reflexivity].
      apply String.eqb_eq in Hk'. contradiction.
    + destruct (String.eqb k0 k'); [reflexivity|exact IH].
Qed.

Lemma Map_get_delete_ne (m : PresenceMap) k k' :
  k <> k' -> Map_get (Map_delete m k) k' = Map_get m k'.
Proof.
  intros Hne. induction m as [|[k0 v0] m IH]; simpl; [reflexivity|].
  destruct (String.eqb k0 k) eqn:Hk; simpl.
  - apply String.eqb_eq in Hk. subst k0.
    destruct (String.eqb k k') eqn:Hk'; [|exact IH].
    apply String.eqb_eq in Hk'. contradiction.
  - destruct (String.eqb k0 k'); [reflexivity|exact IH].
Qed.

Lemma Map_keys_set_elem (m : PresenceMap) k v u :
  u ∈ Map_keys (Map_set m k v) <-> u = k \/ u ∈ Map_keys m.
Proof.
  unfold Map_keys. induction m as [|[k0 v0] m IH]; simpl.
  - rewrite list_elem_of_singleton. split; [by left|].
    intros [?|H]; [done|]. by apply elem_of_nil in H.
  - destruct (String.eqb k0 k) eqn:Hk; simpl.
    + apply String.eqb_eq in Hk. subst k0.
      rewrite !elem_of_cons. intuition (subst; auto).
    + rewrite !elem_of_cons, IH. intuition (subst; auto).
Qed.

Lemma Map_keys_set_NoDup (m : PresenceMap) k v :
  NoDup (Map_keys m) -> NoDup (Map_keys (Map_set m k v)).
Proof.
  unfold Map_keys. induction m as [|[k0 v0] m IH]; simpl; intros Hnd.
  - apply NoDup_singleton.
  - apply NoDup_cons in Hnd as [Hnotin Hnd].
    destruct (String.eqb k0 k) eqn:Hk; simpl.
    + apply NoDup_cons. done.
    + apply NoDup_cons. split; [|by apply IH].
      intros Hin. apply (Map_keys_set_elem m k v k0) in Hin as [->|Hin].
      * by rewrite String.eqb_refl in Hk.
      * contradiction.
Qed.

Lemma Map_keys_delete_elem (m : PresenceMap) k u :
  u ∈ Map_keys (Map_delete m k) <-> u <> k /\ u ∈ Map_keys m.
Proof.
  unfold Map_keys. induction m as [|[k0 v0] m IH]; simpl.
  - split; [intros H; by apply elem_of_nil in H|intros [_ H]; done].
  - destruct (String.eqb k0 k) eqn:Hk; simpl.
    + apply String.eqb_eq in Hk. subst k0.
      rewrite IH, elem_of_cons. intuition (subst; auto); congruence.
    + apply String.eqb_neq in Hk.
      rewrite !elem_of_cons, IH. intuition (subst; auto).
Qed.

(** ** Handshake *)

(** The run of a handshake: the middleware, then the registration and the
    [connection] handler when it accepts. *)
Lemma handshake_run sid token env w :
  exists res t1,
    socketAuthMiddleware sid token env w = mkRun (Ok res) w t1
    /\ List.filter is_emit t1 = []
    /\ handshake sid token env w =
       match res with
       | inl msg => mkRun (Ok (inl msg)) w t1
       | inr socket =>
           mkRun (Ok (inr socket))
             (world (on_connection socket env
                       (world (io_register socket env w))))
             (t1 ++ effects (on_connection socket env
                               (world (io_register socket env w))))
       end.
Proof.
  assert (Hmw : exists res t1,
             socketAuthMiddleware sid token env w = mkRun (Ok res) w t1
             /\ List.filter is_emit t1 = []).
  { cbv [socketAuthMiddleware try_catch mbind M_bind mret M_ret throw
         User_findById store_call get_env get_world].
    destruct (required_string token); simpl; [|by eexists _, _].
    destruct (jwt_verify env (default "" token)) as [uid|]; simpl;
      [|by eexists _, _].
    destruct (rejects env UserFindById); simpl; [by eexists _, _|].
    destruct (lookup_user (db w) uid) as [u|]; simpl; by eexists _, _. }
  destruct Hmw as (res & t1 & Hmw & Hquiet).
  exists res, t1. split; [exact Hmw|]. split; [exact Hquiet|].
  unfold handshake. rewrite bind_run, Hmw.
  destruct res as [msg|s].
  - cbn. by rewrite app_nil_r.
  - rewrite bind_run, io_register_run, bind_run.
    cbn [world outcome effects].
    match goal with
    | |- context [on_connection s env ?w2] =>
        pose proof (on_connection_run s env w2) as (Hok & _);
        destruct (on_connection s env w2) as [o3 w3 t3]
    end.
    cbn [outcome world effects] in *. subst o3.
    cbn [mret M_ret outcome world effects app].
    by rewrite app_nil_r.
Qed.

Lemma lookup_user_id (s : Store) (uid : UserId) (u : User) :
  lookup_user s uid = Some u -> u_id u = uid /\ u ∈ users s.
Proof.
  unfold lookup_user. induction (users s) as [|x l IH]; simpl; [discriminate|].
  destruct (bool_decide (u_id x = uid)) eqn:Hx.
  - intros [= <-]. apply bool_decide_eq_true in Hx. split; [done|by left].
  - intros H. destruct (IH H). split; [done|by right].
Qed.

(** What an accepting middleware has checked. *)
Lemma socketAuthMiddleware_accepts sid token env w socket t1 :
  socketAuthMiddleware sid token env w = mkRun (Ok (inr socket)) w t1 ->
  exists t uid u,
    token = Some t /\ t <> ""
    /\ jwt_verify env t = Some uid
    /\ lookup_user (db w) uid = Some u
    /\ socket = mkSocket sid (u_id u) (u_username u).
Proof.
  cbv [socketAuthMiddleware try_catch mbind M_bind mret M_ret throw
       User_findById store_call get_env get_world].
  destruct token as [t|]; simpl; [|intros [=]].
  destruct (truthy t) eqn:Ht; simpl; [|intros [=]].
  destruct (jwt_verify env t) as [uid|] eqn:Hv; simpl; [|intros [=]].
  destruct (rejects env UserFindById); simpl; [intros [=]|].
  destruct (lookup_user (db w) uid) as [u|] eqn:Hu; simpl; [|intros [=]].
  intros [= <- _]. exists t, uid, u. repeat split; try done.
  intros ->. discriminate Ht.
Qed.

(** X1.  A refused handshake mutates nothing: whatever the reason of the
    refusal, the world is the one before (no presence entry, no room, no
    socket, no write) and nothing is emitted.  The middleware never throws:
    a handshake always ends accepted or refused. *)
Theorem handshake_refused_touches_nothing (sid : SocketId)
    (token : option string) (env : Env) (w : World) :
  let r := handshake sid token env w in
  (exists res, outcome r = Ok res)
  /\ (forall msg, outcome r = Ok (inl msg) ->
        world r = w /\ emits (effects r) = []).
Proof.
  intros r. subst r.
  destruct (handshake_run sid token env w) as (res & t1 & _ & Hq & ->).
  destruct res as [msg|s]; simpl.
  - split; [by eexists|]. intros ? _. done.
  - split; [by eexists|]. intros ? [=].
Qed.

Lemma handshake_refused_touches_nothing_witness :
  let r := handshake "s-new" (Some "forged") env_ok world0 in
  world r = world0 /\ emits (effects r) = [].
Proof.
  destruct (handshake_refused_touches_nothing "s-new" (Some "forged")
              env_ok world0) as (_ & Href).
  apply (Href "Authorization error"). vm_compute. reflexivity.
Defined.

(** X2.  A handshake is accepted only for a non-empty token that the
    verifier decodes to the id of a user present in the User store, and the
    socket is bound to that user's id and username. *)
Theorem handshake_accepted_identity (sid : SocketId) (token : option string)
    (env : Env) (w : World) (socket : Socket) :
  outcome (handshake sid token env w) = Ok (inr socket) ->
  exists t u,
    token = Some t /\ t <> ""
    /\ jwt_verify env t = Some (u_id u)
    /\ u ∈ users (db w)
    /\ socket = mkSocket sid (u_id u) (u_username u).
Proof.
  destruct (handshake_run sid token env w) as (res & t1 & Hmw & _ & ->).
  destruct res as [msg|s]; simpl; [intros [=]|]. intros [= <-].
  destruct (socketAuthMiddleware_accepts _ _ _ _ _ _ Hmw)
    as (t & uid & u & -> & Ht & Hv & Hu & ->).
  destruct (lookup_user_id _ _ _ Hu) as [<- Hin].
  exists t, u. done.
Qed.

Lemma handshake_accepted_identity_witness :
  exists t u,
    Some "token-of-A" = Some t /\ t <> ""
    /\ jwt_verify env_ok t = Some (u_id u)
    /\ u ∈ users (db world0)
    /\ mkSocket "s-new" "A" "alice" = mkSocket "s-new" (u_id u) (u_username u).
Proof.
  apply (handshake_accepted_identity "s-new" (Some "token-of-A") env_ok world0
           (mkSocket "s-new" "A" "alice")).
  vm_compute. reflexivity.
Defined.

(** X3.  After an accepted handshake the user's presence entry points at
    the new socket, replacing any earlier entry of the same user; the
    entries of all other users are as before, the [online-users] list that
    is broadcast contains the user, and it has no duplicates if the map had
    none. *)
Theorem handshake_registers_presence (sid : SocketId) (token : option string)
    (env : Env) (w : World) (socket : Socket) :
  let r := handshake sid token env w in
  outcome r = Ok (inr socket) ->
  Map_get (onlineUsers (world r)) (userId socket) = Some sid
  /\ (forall u, u <> userId socket ->
        Map_get (onlineUsers (world r)) u = Map_get (onlineUsers w) u)
  /\ (exists ids, Emit ToAll (online_users ids) ∈ effects r
                  /\ userId socket ∈ ids
                  /\ ids = getOnlineUsers (world r)
                  /\ (NoDup (getOnlineUsers w) -> NoDup ids)).
Proof.
  intros r Hacc. subst r.
  destruct (handshake_run sid token env w) as (res & t1 & Hmw & _ & Heq).
  rewrite Heq in *. destruct res as [msg|s]; simpl in Hacc; [discriminate|].
  injection Hacc as ->.
  destruct (socketAuthMiddleware_accepts _ _ _ _ _ _ Hmw)
    as (t & uid & u & _ & _ & _ & _ & Hs).
  assert (Hid : id socket = sid) by (subst socket; reflexivity).
  pose proof (on_connection_run socket env (world (io_register socket env w)))
    as (_ & _ & Hon & _ & Hemit).
  cbn [world effects]. unfold getOnlineUsers at 1.
  rewrite io_register_run in Hon, Hemit |- *.
  cbn [world onlineUsers] in Hon, Hemit |- *.
  rewrite Hid in Hon, Hemit |- *. rewrite Hon.
  split; [apply Map_get_set_eq|].
  split; [intros u' Hne; apply Map_get_set_ne; congruence|].
  eexists. split; [apply elem_of_app; right; exact Hemit|].
  split; [apply Map_keys_set_elem; by left|].
  split; [reflexivity|]. apply Map_keys_set_NoDup.
Qed.

(** Alice connects from a second device: her entry now points at it. *)
Lemma handshake_registers_presence_witness :
  let r := handshake "s-new" (Some "token-of-A") env_ok world0 in
  Map_get (onlineUsers world0) "A" = Some "s-alice"
  /\ Map_get (onlineUsers (world r)) "A" = Some "s-new".
Proof.
  split; [reflexivity|].
  destruct (handshake_registers_presence "s-new" (Some "token-of-A") env_ok
              world0 (mkSocket "s-new" "A" "alice")) as (Hp & _).
  - vm_compute. reflexivity.
  - exact Hp.
Defined.

(** ** Rooms at connection time *)

Lemma room_members_join (rs : gmap string (gset SocketId)) sid room room' s :
  s ∈ room_members (<[room := {[sid]} ∪ room_members rs room]> rs) room'
  <-> s ∈ room_members rs room' \/ (s = sid /\ room' = room).
Proof.
  unfold room_members. destruct (decide (room = room')) as [->|Hne].
  - rewrite lookup_insert_eq. simpl.
    rewrite elem_of_union, elem_of_singleton. intuition.
  - rewrite lookup_insert_ne by done. intuition congruence.
Qed.

Lemma join_all_members sid l : forall rs room s,
  s ∈ room_members (join_all sid rs l) room
  <-> s ∈ room_members rs room \/ (s = sid /\ room ∈ l).
Proof.
  induction l as [|x l IH]; intros rs room s; simpl.
  - split; [by left|]. intros [?|[_ H]]; [done|]. by apply elem_of_nil in H.
  - rewrite IH, room_members_join, elem_of_cons. intuition (subst; auto).
Qed.

Lemma forEach_join_run {A} (l : list A) (f : A -> string) sid env w :
  forEach l (fun x => socket_join sid (f x)) env w =
  mkRun (Ok tt)
    (mkWorld (onlineUsers w) (sockets w) (join_all sid (rooms w) (f <$> l))
       (db w))
    [].
Proof.
  revert w. induction l as [|x l IH]; intros w; simpl.
  - by destruct w.
  - rewrite bind_run. cbn [socket_join].
    change (socket_join sid (f x) env w) with
      (mkRun (Ok tt)
         (mkWorld (onlineUsers w) (sockets w)
            (<[f x := {[sid]} ∪ room_members (rooms w) (f x)]> (rooms w))
            (db w)) []).
    cbn [outcome world effects]. rewrite IH. reflexivity.
Qed.

(** The room table after the [connection] handler. *)
Lemma on_connection_rooms socket env w :
  rooms (world (on_connection socket env w)) =
  let joined :=
    if rejects env GroupFind then rooms w
    else join_all (id socket) (rooms w)
           (g_id <$> filter (fun g => userId socket ∈ members g)
                       (groups (db w))) in
  <[userId socket := {[id socket]} ∪ room_members joined (userId socket)]>
    joined.
Proof.
  cbv [on_connection listener not_awaited try_catch mbind M_bind mret M_ret
       Group_find_members User_findByIdAndUpdate modify_onlineUsers modify_db
       store_call get_world put_world get_env emit console_error effect
       getOnlineUsers socket_join].
  simpl.
  destruct (rejects env GroupFind) eqn:Hfind; simpl.
  - destruct (rejects env UserFindByIdAndUpdate); reflexivity.
  - match goal with
    | |- context [forEach ?l ?f env ?w1] =>
        change (forEach l f env w1)
          with (forEach l (fun g => socket_join (id socket) (g_id g)) env w1);
        rewrite (forEach_join_run l g_id (id socket) env w1)
    end.
    simpl. destruct (rejects env UserFindByIdAndUpdate); reflexivity.
Qed.

(** X4.  When the group lookup of the [connection] handler succeeds, the
    new socket is in the room of every persisted group its user is a member
    of and in the room named by its user id; no socket leaves a room; and
    the new socket enters no other room than these. *)
Theorem connection_joins_member_rooms (socket : Socket) (env : Env)
    (w : World) :
  rejects env GroupFind = false ->
  let r := on_connection socket env w in
  (forall g, g ∈ groups (db w) -> userId socket ∈ members g ->
     id socket ∈ room_members (rooms (world r)) (g_id g))
  /\ id socket ∈ room_members (rooms (world r)) (userId socket)
  /\ (forall s room, s ∈ room_members (rooms w) room ->
        s ∈ room_members (rooms (world r)) room)
  /\ (forall room, id socket ∈ room_members (rooms (world r)) room ->
        id socket ∈ room_members (rooms w) room
        \/ room = userId socket
        \/ exists g, g ∈ groups (db w) /\ userId socket ∈ members g
                     /\ g_id g = room).
Proof.
  intros Hfind r. subst r. rewrite on_connection_rooms, Hfind. cbn zeta.
  split; [|split; [|split]].
  - intros g Hg Hm. apply room_members_join. left.
    apply join_all_members. right. split; [done|].
    apply list_elem_of_fmap. exists g. split; [done|].
    apply list_elem_of_filter. done.
  - apply room_members_join. right. done.
  - intros s room Hs. apply room_members_join. left.
    apply join_all_members. by left.
  - intros room Hin. apply room_members_join in Hin as [Hin|[_ ->]];
      [|right; by left].
    apply join_all_members in Hin as [Hin|[_ Hin]]; [by left|].
    right. right. apply list_elem_of_fmap in Hin as (g & -> & Hg).
    apply list_elem_of_filter in Hg as [Hm Hg]. eauto.
Qed.

(** Bob connects again: his socket is in the room of g1 (he is a member)
    and not in the room of g2 (he is not). *)
Lemma connection_joins_member_rooms_witness :
  let r := on_connection (mkSocket "s-bob2" "B" "bob") env_ok world0 in
  "s-bob2" ∈ room_members (rooms (world r)) "g1"
  /\ "s-bob2" ∉ room_members (rooms (world r)) "g2".
Proof.
  destruct (connection_joins_member_rooms (mkSocket "s-bob2" "B" "bob")
              env_ok world0) as (Hjoin & _ & _ & Honly).
  - reflexivity.
  - split.
    + apply (Hjoin (mkGroup "g1" "team" ["A"; "B"; "C"] ["A"])).
      * vm_compute. apply list_elem_of_here.
      * vm_compute. set_solver.
    + intros Hin. apply Honly in Hin as [Hin|[Hin|(g & Hg & Hm & Hid)]].
      * vm_compute in Hin. set_solver.
      * discriminate Hin.
      * vm_compute in Hg.
        apply elem_of_cons in Hg as [->|Hg]; [discriminate Hid|].
        apply elem_of_cons in Hg as [->|Hg]; [|by apply elem_of_nil in Hg].
        vm_compute in Hm.
        apply elem_of_cons in Hm as [Hm|Hm]; [discriminate Hm|].
        by apply elem_of_nil in Hm.
Defined.

(** X5.  When the group lookup of the [connection] handler rejects, the
    error is logged and the connection goes on: the socket is put in the
    room named by its user id only, so in no group room that it was not
    already in, and [connection-success] is still broadcast. *)
Theorem connection_survives_group_lookup_failure (socket : Socket)
    (env : Env) (w : World) :
  rejects env GroupFind = true ->
  let r := on_connection socket env w in
  outcome r = Ok tt
  /\ ConsoleError "Error joining group rooms:" StoreError ∈ effects r
  /\ rooms (world r) =
       <[userId socket :=
           {[id socket]} ∪ room_members (rooms w) (userId socket)]> (rooms w)
  /\ count is_connection_success (effects r) = 1.
Proof.
  intros Hfind r. subst r.
  pose proof (on_connection_run socket env w) as (Hok & _ & _ & Hcs & _).
  split; [exact Hok|]. split; [|split].
  - cbv [on_connection listener not_awaited try_catch mbind M_bind mret M_ret
         Group_find_members User_findByIdAndUpdate modify_onlineUsers
         modify_db store_call get_world put_world get_env emit console_error
         effect getOnlineUsers socket_join].
    simpl. rewrite Hfind. simpl.
    destruct (rejects env UserFindByIdAndUpdate); simpl;
      apply list_elem_of_further, list_elem_of_here.
  - rewrite on_connection_rooms, Hfind. reflexivity.
  - unfold count. rewrite Hcs. reflexivity.
Qed.

Lemma connection_survives_group_lookup_failure_witness :
  let r := on_connection (mkSocket "s-bob2" "B" "bob")
             (env_rejecting GroupFind) world0 in
  outcome r = Ok tt
  /\ ("s-bob2" ∉ room_members (rooms (world r)) "g1")
  /\ count is_connection_success (effects r) = 1.
Proof.
  destruct (connection_survives_group_lookup_failure
              (mkSocket "s-bob2" "B" "bob") (env_rejecting GroupFind) world0)
    as (Hok & _ & Hrooms & Hcs).
  - vm_compute. reflexivity.
  - split; [exact Hok|]. split; [|exact Hcs].
    rewrite Hrooms. vm_compute. set_solver.
Defined.

(** ** Disconnect *)

Lemma lookup_user_update (l : list User) (uid target : UserId)
    (f : User -> User) :
  (forall u, u_id (f u) = u_id u) ->
  find (fun u => bool_decide (u_id u = uid))
    ((fun u => if bool_decide (u_id u = target) then f u else u) <$> l)
  = (fun u => if bool_decide (u_id u = target) then f u else u)
      <$> find (fun u => bool_decide (u_id u = uid)) l.
Proof.
  intros Hid. induction l as [|x l IH]; simpl; [reflexivity|].
  destruct (bool_decide (u_id x = target)) eqn:Ht; simpl.
  - rewrite Hid. destruct (bool_decide (u_id x = uid)); simpl; [|exact IH].
    by rewrite Ht.
  - destruct (bool_decide (u_id x = uid)); simpl; [|exact IH].
    by rewrite Ht.
Qed.

(** The registries after the [disconnect] listener, whatever the store
    answers. *)
Lemma on_disconnect_registries socket env w :
  let r := on_disconnect socket env w in
  outcome r = Ok tt
  /\ onlineUsers (world r) = Map_delete (onlineUsers w) (userId socket)
  /\ sockets (world r) = sockets w
  /\ rooms (world r) = rooms w.
Proof.
  unfold_run. destruct (rejects env UserFindByIdAndUpdate); simpl; done.
Qed.

(** X6.  When the write of a [disconnect] succeeds: the user's presence
    entry is gone and the other entries are untouched; the user's document
    is offline with the current time as last-seen and every other user
    document is as before; the only emit is the [online-users] broadcast,
    whose list lacks the user and keeps every other online identity. *)
Theorem disconnect_marks_offline (socket : Socket) (env : Env) (w : World) :
  rejects env UserFindByIdAndUpdate = false ->
  let r := on_disconnect socket env w in
  Map_get (onlineUsers (world r)) (userId socket) = None
  /\ (forall u, u <> userId socket ->
        Map_get (onlineUsers (world r)) u = Map_get (onlineUsers w) u)
  /\ (forall u, lookup_user (db w) (userId socket) = Some u ->
        lookup_user (db (world r)) (userId socket)
        = Some (mkUser (u_id u) (u_username u) false (Some (now env))))
  /\ (forall uid u, uid <> userId socket ->
        lookup_user (db w) uid = Some u ->
        lookup_user (db (world r)) uid = Some u)
  /\ (exists ids,
        emits (effects r) = [Emit ToAll (online_users ids)]
        /\ (userId socket ∉ ids)
        /\ (forall u, u <> userId socket -> u ∈ getOnlineUsers w -> u ∈ ids)).
Proof.
  intros Hok r. subst r.
  pose proof (on_disconnect_registries socket env w) as (_ & Hon & _).
  pose proof (disconnect_run_ok socket env w Hok) as (Hgone & Ht).
  cbn zeta in *. rewrite Ht, Hon.
  split; [apply Map_get_delete|].
  split; [intros u Hne; apply Map_get_delete_ne; congruence|].
  assert (Hdb : users (db (world (on_disconnect socket env w))) =
                (fun u => if bool_decide (u_id u = userId socket)
                          then mkUser (u_id u) (u_username u) false
                                 (Some (now env))
                          else u) <$> users (db w)).
  { unfold_run. rewrite Hok. reflexivity. }
  split; [|split].
  - intros u Hu. unfold lookup_user in *. rewrite Hdb.
    rewrite (lookup_user_update (users (db w)) (userId socket) (userId socket)
               (fun u => mkUser (u_id u) (u_username u) false (Some (now env))))
      by done.
    rewrite Hu. simpl. destruct (lookup_user_id (db w) _ _ Hu) as [Hid _].
    by rewrite bool_decide_eq_true_2.
  - intros uid u Hne Hu. unfold lookup_user in *. rewrite Hdb.
    rewrite (lookup_user_update (users (db w)) uid (userId socket)
               (fun u => mkUser (u_id u) (u_username u) false (Some (now env))))
      by done.
    rewrite Hu. simpl. destruct (lookup_user_id (db w) _ _ Hu) as [Hid _].
    rewrite bool_decide_eq_false_2 by congruence. reflexivity.
  - eexists. split; [reflexivity|]. split.
    + apply Map_keys_delete.
    + intros u Hne Hin. apply Map_keys_delete_elem. done.
Qed.

Lemma disconnect_marks_offline_witness :
  let r := on_disconnect bob env_ok world0 in
  lookup_user (db (world r)) "B" = Some (mkUser "B" "bob" false (Some 1000))
  /\ emits (effects r) = [Emit ToAll (online_users ["A"; "D"])].
Proof.
  destruct (disconnect_marks_offline bob env_ok world0)
    as (_ & _ & Hu & _ & _).
  - reflexivity.
  - split; [|vm_compute; reflexivity].
    apply (Hu (mkUser "B" "bob" true None)). vm_compute. reflexivity.
Defined.

Lemma close_run socket env w :
  close socket env w =
  on_disconnect socket env
    (mkWorld (onlineUsers w)
       (filter (fun s => id s ≠ id socket) (sockets w))
       ((fun r => r ∖ {[id socket]}) <$> rooms w) (db w)).
Proof.
  unfold close. rewrite bind_run.
  change (io_unregister socket env w) with
    (mkRun (Ok tt)
       (mkWorld (onlineUsers w)
          (filter (fun s => id s ≠ id socket) (sockets w))
          ((fun r => r ∖ {[id socket]}) <$> rooms w) (db w)) []).
  cbn [outcome world effects app].
  by destruct (on_disconnect socket env _).
Qed.

Lemma stale_disconnect_after_connection (old new : Socket)
    (env1 env2 : Env) (w : World) :
  userId old = userId new ->
  id old <> id new ->
  new ∈ sockets w ->
  let w1 := world (on_connection new env1 w) in
  let w2 := world (close old env2 w1) in
  Map_get (onlineUsers w1) (userId new) = Some (id new)
  /\ Map_get (onlineUsers w2) (userId new) = None
  /\ new ∈ sockets w2
  /\ (userId new ∉ getOnlineUsers w2).
Proof.
  intros Huser Hid Hin w1 w2. subst w1 w2.
  pose proof (on_connection_run new env1 w) as (_ & Hs & Hon & _).
  rewrite close_run.
  match goal with
  | |- context [on_disconnect old env2 ?w1] =>
      pose proof (on_disconnect_registries old env2 w1) as (_ & Hon2 & Hs2 & _)
  end.
  cbn zeta in *. cbn [onlineUsers sockets] in Hon2, Hs2.
  unfold getOnlineUsers. rewrite Hon2, Hs2, Hon, Hs, Huser.
  split; [apply Map_get_set_eq|]. split; [apply Map_get_delete|].
  split; [|apply Map_keys_delete].
  apply list_elem_of_filter. split; [congruence|done].
Qed.

(** X7.  Presence is keyed by user, not by socket.  When a user's
    handshake is accepted on a new socket while an older socket of the same
    user is still open, the entry is overwritten; when the older socket
    then closes, its [disconnect] removes the user's entry although the new
    socket is still connected: the user has no presence entry and is out
    of the broadcast list. *)
Theorem stale_disconnect_hides_live_session (old new : Socket)
    (sid : SocketId) (token : option string) (env1 env2 : Env) (w : World) :
  outcome (handshake sid token env1 w) = Ok (inr new) ->
  userId old = userId new ->
  id old <> sid ->
  let w1 := world (handshake sid token env1 w) in
  let w2 := world (close old env2 w1) in
  Map_get (onlineUsers w1) (userId new) = Some sid
  /\ Map_get (onlineUsers w2) (userId new) = None
  /\ new ∈ sockets w2
  /\ (userId new ∉ getOnlineUsers w2).
Proof.
  intros Hacc Huser Hid.
  destruct (handshake_run sid token env1 w) as (res & t1 & Hmw & _ & Heq).
  rewrite Heq in *. destruct res as [msg|s]; simpl in Hacc; [discriminate|].
  injection Hacc as ->.
  destruct (socketAuthMiddleware_accepts _ _ _ _ _ _ Hmw)
    as (t & uid & u & _ & _ & _ & _ & Hs).
  assert (Hsid : id new = sid) by (subst new; reflexivity).
  cbn [world]. rewrite <- Hsid in *.
  apply stale_disconnect_after_connection; [done|done|].
  rewrite io_register_run. cbn [world sockets].
  apply elem_of_app. right. apply list_elem_of_here.
Qed.

(** Alice connects from a second device, then her first socket closes. *)
Lemma stale_disconnect_hides_live_session_witness :
  let alice2 := mkSocket "s-alice2" "A" "alice" in
  let w1 := world (handshake "s-alice2" (Some "token-of-A") env_ok world0) in
  let w2 := world (close alice env_ok w1) in
  Map_get (onlineUsers w1) "A" = Some "s-alice2"
  /\ Map_get (onlineUsers w2) "A" = None /\ alice2 ∈ sockets w2.
Proof.
  intros alice2 w1 w2.
  destruct (stale_disconnect_hides_live_session alice alice2 "s-alice2"
              (Some "token-of-A") env_ok env_ok world0)
    as (Hset & Hgone & Hin & _).
  - vm_compute. reflexivity.
  - reflexivity.
  - discriminate.
  - split; [exact Hset|]. split; [exact Hgone|exact Hin].
Defined.

(** ** The listeners without store calls, over the connection lifecycle *)

(** X8.  [get-user-status] answers the asking socket only, and its answer
    follows the lifecycle: right after a user's [connection] handler the
    user is reported online, right after the user's [disconnect] listener
    offline, whether or not the store writes of those handlers succeed. *)
Theorem status_query_follows_presence (socket asker : Socket) (env : Env)
    (w : World) :
  on_get_user_status (world (on_connection socket env w)) asker
    (Some (Some (userId socket)))
  = Ok [(ToSocket (id asker), user_status (Some (userId socket)) true)]
  /\ on_get_user_status (world (on_disconnect socket env w)) asker
       (Some (Some (userId socket)))
     = Ok [(ToSocket (id asker), user_status (Some (userId socket)) false)].
Proof.
  pose proof (on_connection_run socket env w) as (_ & _ & Hon & _).
  pose proof (on_disconnect_registries socket env w) as (_ & Hoff & _).
  cbn zeta in *. unfold on_get_user_status, Map_has.
  rewrite Hon, Hoff, Map_get_set_eq, Map_get_delete. done.
Qed.

(** X9.  [typing] and [stop-typing] are routed by presence: addressed to a
    user whose [connection] handler has just run, the signal goes to that
    user's socket and carries the sender's identity; addressed to a user
    whose [disconnect] listener has just run, it is dropped without any
    signal and without error. *)
Theorem typing_follows_presence (socket sender : Socket) (env : Env)
    (w : World) :
  id socket <> "" ->
  let to_ := Some (mkTyping (Some (userId socket))) in
  on_typing (world (on_connection socket env w)) sender to_
  = Ok [(ToRoom (id socket), user_typing (userId sender) (username sender))]
  /\ on_stop_typing (world (on_connection socket env w)) sender to_
     = Ok [(ToRoom (id socket), user_stop_typing (userId sender))]
  /\ on_typing (world (on_disconnect socket env w)) sender to_ = Ok []
  /\ on_stop_typing (world (on_disconnect socket env w)) sender to_ = Ok [].
Proof.
  intros Hid to_. subst to_.
  pose proof (on_connection_run socket env w) as (_ & _ & Hon & _).
  pose proof (on_disconnect_registries socket env w) as (_ & Hoff & _).
  cbn zeta in *. unfold on_typing, on_stop_typing, signal_if_online. simpl.
  rewrite Hon, Hoff, Map_get_set_eq, Map_get_delete.
  assert (Ht : truthy (id socket) = true).
  { unfold truthy. apply negb_true_iff, String.eqb_neq. exact Hid. }
  rewrite Ht. done.
Qed.

Lemma typing_follows_presence_witness :
  on_typing (world (on_connection bob env_ok world0)) alice
    (Some (mkTyping (Some "B")))
  = Ok [(ToRoom "s-bob", user_typing "A" "alice")]
  /\ on_typing (world (on_disconnect bob env_ok world0)) alice
       (Some (mkTyping (Some "B"))) = Ok [].
Proof.
  destruct (typing_follows_presence bob alice env_ok world0)
    as (Hon & _ & Hoff & _).
  - discriminate.
  - split; [exact Hon|exact Hoff].
Defined.

(** ** Delivery of a saved message *)

(** X10.  A valid [send-message] whose store calls all succeed, with a
    content of ASCII text and a receiver id spelled as ids are printed (24
    lower-case hexadecimal digits), appends one record: sender the
    connection's user, receiver the payload's [receiverId], trimmed
    content, unread.  If the presence map has an entry for the receiver,
    [receive-message] goes to that socket and then [sent-message] to the
    sender's own socket; if it has none, the record is stored all the same
    and the only emit is the echo to the sender.  The events carry one
    document, which bears the identifier of the stored record. *)
Theorem direct_message_delivery (socket : Socket) (data : SendMessage)
    (env : Env) (w : World) :
  (forall rid, receiverId data = Some rid -> is_ObjectId_string rid = true) ->
  (forall c, sm_content data = Some c -> is_ascii_text c = true) ->
  validate_Message
    (new_Message (Some (userId socket)) (receiverId data) (sm_content data)
       (or_default (sm_messageType data) "text") None) = true ->
  rejects env MessageSave = false ->
  rejects env (MessagePopulate "sender") = false ->
  rejects env (MessagePopulate "receiver") = false ->
  let r := on_send_message socket (Some data) env w in
  exists m p,
    messages (db (world r)) = messages (db w) ++ [m]
    /\ sender m = Some (userId socket)
    /\ receiver m = receiverId data
    /\ content m = trim <$> sm_content data
    /\ isRead m = false
    /\ m_id p = m_id m
    /\ (forall sid,
          Map_get_opt (onlineUsers w) (receiverId data) = Some sid ->
          sid <> "" ->
          emits (effects r) =
            [Emit (ToRoom sid) (receive_message p);
             Emit (ToSocket (id socket)) (sent_message p)])
    /\ (Map_get_opt (onlineUsers w) (receiverId data) = None ->
        emits (effects r) = [Emit (ToSocket (id socket)) (sent_message p)]).
Proof.
  intros _ _ Hv Hs Hp1 Hp2. unfold_run. simpl.
  rewrite Hv. simpl. rewrite Hs. simpl. rewrite Hp1. simpl.
  rewrite Hp2. simpl.
  eexists _, _. repeat run_case; repeat split; try reflexivity.
  all: try (intros [=]).
  all: intros sid [= <-] Hne; try reflexivity; exfalso.
  all: match goal with
       | H : truthy _ = false |- _ =>
           apply negb_false_iff, String.eqb_eq in H; contradiction
       end.
Qed.

(** Alice writes to Bob, who is connected: the record is stored with Bob
    as receiver, Bob's socket gets the message and Alice's the echo. *)
Lemma direct_message_delivery_witness :
  let r := on_send_message alice1
             (Some (mkSendMessage (Some id_b) (Some " hi ") None))
             env_ok world1 in
  exists m p,
    messages (db (world r)) = messages (db world1) ++ [m]
    /\ receiver m = Some id_b /\ content m = Some "hi"
    /\ m_id p = m_id m
    /\ emits (effects r) =
         [Emit (ToRoom "s-bob") (receive_message p);
          Emit (ToSocket "s-alice") (sent_message p)].
Proof.
  destruct (direct_message_delivery alice1
              (mkSendMessage (Some id_b) (Some " hi ") None) env_ok world1)
    as (m & p & Hm & _ & Hr & Hc & _ & Hid & Hon & _); try reflexivity.
  - intros rid [= <-]. reflexivity.
  - intros c [= <-]. reflexivity.
  - exists m, p. split; [exact Hm|]. split; [exact Hr|]. split; [exact Hc|].
    split; [exact Hid|]. apply (Hon "s-bob"); [reflexivity|discriminate].
Defined.

(** X11.  A valid [send-group-message] from a persisted member, with every
    store call succeeding, appends one record that carries the group and no
    receiver, and emits exactly one event, [receive-group-messsage],
    addressed to the room named by the group id.  Who receives it is
    decided by the room table as it is, not by the persisted membership. *)
Theorem group_message_delivery (socket : Socket) (data : SendGroupMessage)
    (gid : GroupId) (g : Group) (env : Env) (w : World) :
  groupId data = Some gid ->
  lookup_group (db w) gid = Some g ->
  userId socket ∈ members g ->
  validate_Message
    (new_Message (Some (userId socket)) None (sgm_content data)
       (or_default (sgm_messageType data) "text") (Some gid)) = true ->
  rejects env GroupFindById = false ->
  rejects env MessageSave = false ->
  rejects env (MessagePopulate "sender") = false ->
  let r := on_send_group_message socket (Some data) env w in
  exists m,
    messages (db (world r)) = messages (db w) ++ [m]
    /\ sender m = Some (userId socket)
    /\ receiver m = None
    /\ group m = Some gid
    /\ emits (effects r) = [Emit (ToRoom gid) (receive_group_messsage m)]
    /\ recipients (world r) (ToRoom gid) = room_members (rooms w) gid.
Proof.
  intros Hgid Hg Hmem Hv Hf Hs Hp. unfold_run. simpl.
  rewrite Hgid. simpl. rewrite Hf. simpl. rewrite Hg. simpl.
  rewrite (bool_decide_eq_true_2 _ Hmem). simpl.
  rewrite Hv. simpl. rewrite Hs. simpl. rewrite Hp. simpl.
  eexists. repeat split; reflexivity.
Qed.

(** Alice writes to g1.  Dave is not a persisted member of g1, but his
    socket is in the room, so the event reaches it. *)
Lemma group_message_delivery_witness :
  let r := on_send_group_message alice
             (Some (mkSendGroupMessage (Some "g1") (Some "hello all") None))
             env_ok world0 in
  persisted_member (db world0) (Some "g1") "D" = false
  /\ exists m,
       emits (effects r) = [Emit (ToRoom "g1") (receive_group_messsage m)]
       /\ "s-dave" ∈ recipients (world r) (ToRoom "g1").
Proof.
  split; [reflexivity|].
  destruct (group_message_delivery alice
              (mkSendGroupMessage (Some "g1") (Some "hello all") None)
              "g1" (mkGroup "g1" "team" ["A"; "B"; "C"] ["A"]) env_ok world0)
    as (m & _ & _ & _ & _ & Hemit & Hrec); try reflexivity.
  - apply list_elem_of_here.
  - exists m. split; [exact Hemit|]. rewrite Hrec. vm_compute. set_solver.
Defined.



(** ** Read receipts, again *)

Lemma read_update_idempotent senderId reader t1 t2 m :
  read_update senderId reader t2 (read_update senderId reader t1 m)
  = read_update senderId reader t1 m.
Proof.
  unfold read_update.
  destruct (unread_from_to senderId reader m) eqn:Hf.
  - unfold unread_from_to, mark_as_read. simpl.
    by rewrite andb_false_r.
  - by rewrite Hf.
Qed.

(** X13.  Marking the same conversation as read a second time changes no
    record: the read times written by the first update stay, whatever the
    clock of the second; the sender is notified again just the same. *)
Theorem mark_read_twice (socket : Socket) (data : MarkRead)
    (env1 env2 : Env) (w : World) :
  rejects env1 MessageUpdateMany = false ->
  rejects env2 MessageUpdateMany = false ->
  let r1 := on_mark_read socket (Some data) env1 w in
  let r2 := on_mark_read socket (Some data) env2 (world r1) in
  world r2 = world r1 /\ emits (effects r2) = emits (effects r1).
Proof.
  intros H1 H2 r1 r2. subst r1 r2.
  destruct (mark_read_run_ok socket data env1 w H1) as (_ & Hw1 & Ht1).
  match goal with
  | |- context [on_mark_read socket (Some data) env2 ?w1] =>
      destruct (mark_read_run_ok socket data env2 w1 H2) as (_ & Hw2 & Ht2)
  end.
  cbn zeta in *. rewrite Hw2, Ht2, Ht1, Hw1. cbn [onlineUsers sockets rooms db
    messages groups users].
  split; [|reflexivity]. do 2 f_equal.
  rewrite <- list_fmap_compose. apply list_fmap_ext.
  intros i m _. apply read_update_idempotent.
Qed.

Lemma mark_read_twice_witness :
  let r1 := on_mark_read bob (Some (mkMarkRead (Some "A"))) env_ok world0 in
  let r2 := on_mark_read bob (Some (mkMarkRead (Some "A")))
              (mkEnv (fun _ => false) 2000 "g9" tokens) (world r1) in
  world r2 = world r1 /\ emits (effects r2) = emits (effects r1).
Proof.
  apply (mark_read_twice bob (mkMarkRead (Some "A")) env_ok
           (mkEnv (fun _ => false) 2000 "g9" tokens) world0); reflexivity.
Defined.






(** X15.  The REST route [PUT /read/:userId] makes the same update to the
    store as the [mark-read] listener for the same reader and sender, but
    emits nothing: the sender is not notified, whatever the presence
    map. *)
Theorem rest_mark_read_does_not_notify (socket : Socket) (sender_ : UserId)
    (env : Env) (w : World) :
  let rest := MessageRoutes.mark_read (userId socket) sender_ env w in
  let live := on_mark_read socket (Some (mkMarkRead (Some sender_))) env w in
  world rest = world live
  /\ emits (effects rest) = []
  /\ (outcome rest =
        Ok (GroupRoutes.mkResponse
              (if rejects env MessageUpdateMany then 500 else 200)
              (if rejects env MessageUpdateMany then "error.message"
               else "Messages marked as read"))).
Proof.
  cbv [MessageRoutes.mark_read GroupRoutes.respond_500]. unfold_run. simpl.
  destruct (rejects env MessageUpdateMany); simpl.
  - done.
  - destruct (Map_get (onlineUsers w) sender_) as [sid|]; simpl; [|done].
    destruct (truthy sid); done.
Qed.

(** ** The group routes *)

Lemma lookup_group_id (s : Store) (gid : GroupId) (g : Group) :
  lookup_group s gid = Some g -> g_id g = gid.
Proof.
  unfold lookup_group. induction (groups s) as [|x l IH]; simpl; [discriminate|].
  destruct (bool_decide (g_id x = gid)) eqn:Hx; [|exact IH].
  intros [= <-]. by apply bool_decide_eq_true in Hx.
Qed.

Lemma lookup_update_group_at (s : Store) (gid : GroupId) (f : Group -> Group)
    (g : Group) :
  (forall x, g_id x = gid -> g_id (f x) = gid) ->
  lookup_group s gid = Some g ->
  lookup_group (update_group gid f s) gid = Some (f g).
Proof.
  intros Hid. unfold lookup_group, update_group. simpl.
  induction (groups s) as [|x l IH]; simpl; [discriminate|].
  destruct (bool_decide (g_id x = gid)) eqn:Hx; simpl.
  - intros [= ->]. apply bool_decide_eq_true in Hx.
    by rewrite (bool_decide_eq_true_2 _ (Hid _ Hx)).
  - rewrite Hx. exact IH.
Qed.

Lemma lookup_group_deleted (l : list Group) (gid : GroupId) :
  find (fun g => bool_decide (g_id g = gid)) (filter (fun g => g_id g ≠ gid) l)
  = None.
Proof.
  induction l as [|x l IH]; simpl; [reflexivity|].
  rewrite filter_cons. destruct (decide (g_id x ≠ gid)) as [Hne|Heq].
  - simpl. by rewrite (bool_decide_eq_false_2 _ Hne).
  - exact IH.
Qed.

Lemma existsb_eqb_elem (u : string) (l : list string) :
  existsb (fun m => String.eqb m u) l = true <-> u ∈ l.
Proof.
  induction l as [|x l IH]; simpl.
  - split; [discriminate|]. intros H. by apply elem_of_nil in H.
  - rewrite orb_true_iff, IH, elem_of_cons, String.eqb_eq.
    intuition congruence.
Qed.

Lemma existsb_eqb_not_elem (u : string) (l : list string) :
  existsb (fun m => String.eqb m u) l = false <-> u ∉ l.
Proof.
  rewrite <- existsb_eqb_elem. destruct (existsb _ l); intuition congruence.
Qed.

(** Unfolding one request down to the store calls it makes. *)
Ltac unfold_route :=
  cbv [GroupRoutes.leave GroupRoutes.remove_member
       GroupRoutes.remove_admin_role GroupRoutes.add_members
       GroupRoutes.make_admin GroupRoutes.delete_group GroupRoutes.create
       GroupRoutes.send_message GroupRoutes.route
       GroupRoutes.groupExists GroupRoutes.isGroupMember
       GroupRoutes.isGroupAdmin GroupRoutes.canRemoveMember
       GroupRoutes.preventLastAdminRemoval GroupRoutes.canPromoteToAdmin
       GroupRoutes.validateMembers GroupRoutes.validateGroupData
       GroupRoutes.checkGroupSizeLimit
       GroupRoutes.internal_error GroupRoutes.respond_500
       GroupRoutes.with_group GroupRoutes.req_group
       try_catch mbind M_bind mret M_ret throw
       Group_findById Group_save Group_populate Group_create
       Group_findByIdAndDelete Message_deleteMany_group
       Message_save Message_populate
       effect store_call modify_db get_world put_world get_env
       outcome world effects].

(** X16.  Leaving a group through the REST route, all store calls
    succeeding.  If other members remain, the stored group has exactly
    them as members, the leaver is no admin any more, and the group still
    has an admin (the first remaining member when no admin was left).  If
    the leaver was the last member, the group is deleted and no message of
    that group is left. *)
Theorem rest_leave_effect (req : GroupRoutes.Request) (env : Env) (w : World)
    (g : Group) :
  all_succeed env ->
  lookup_group (db w) (GroupRoutes.params_groupId req) = Some g ->
  GroupRoutes.req_userId req ∈ members g ->
  let r := GroupRoutes.leave req env w in
  let gid := GroupRoutes.params_groupId req in
  let rest := filter (fun m => m ≠ GroupRoutes.req_userId req) (members g) in
  (rest = [] ->
   lookup_group (db (world r)) gid = None
   /\ (forall m, m ∈ messages (db (world r)) -> group m <> Some gid))
  /\ (rest <> [] ->
      exists g',
        lookup_group (db (world r)) gid = Some g'
        /\ members g' = rest
        /\ (GroupRoutes.req_userId req ∉ admins g')
        /\ admins g' <> []
        /\ messages (db (world r)) = messages (db w)).
Proof.
  intros Hall Hg Hmem r gid rest. subst r gid rest.
  pose proof (lookup_group_id _ _ _ Hg) as Hgid.
  pose proof (proj2 (existsb_eqb_elem _ _) Hmem) as Hex.
  unfold_route.
  repeat (first [rewrite Hall | rewrite Hg | rewrite Hex]; simpl).
  destruct (filter (fun m => m ≠ GroupRoutes.req_userId req) (members g))
    as [|first rest] eqn:Hrest; simpl.
  - rewrite !Hall. simpl. split; [|intros H; by destruct H].
    intros _. split.
    + unfold lookup_group. simpl. apply lookup_group_deleted.
    + intros m Hin. apply list_elem_of_filter in Hin as [Hne _]. exact Hne.
  - rewrite !Hall. simpl. split; [discriminate|]. intros _.
    eexists. split.
    + rewrite <- Hgid in Hg |- *.
      apply (lookup_update_group_at (db w) (g_id g)); [|exact Hg].
      intros x _. reflexivity.
    + simpl. split; [reflexivity|].
      assert (Hfirst : first <> GroupRoutes.req_userId req).
      { assert (Hin : first ∈ filter (fun m => m ≠ GroupRoutes.req_userId req)
                                (members g)) by (rewrite Hrest; by left).
        apply list_elem_of_filter in Hin as [Hne _]. exact Hne. }
      destruct (filter (fun m => m ≠ GroupRoutes.req_userId req) (admins g))
        as [|a ads] eqn:Hads; simpl.
      * split; [|done]. intros Hin. apply list_elem_of_singleton in Hin.
        congruence.
      * split; [|done]. intros Hin.
        assert (Hin' : GroupRoutes.req_userId req
                       ∈ filter (fun m => m ≠ GroupRoutes.req_userId req)
                           (admins g)) by (rewrite Hads; exact Hin).
        apply list_elem_of_filter in Hin' as [Hne _]. done.
Qed.

(** Alice leaves g1, where she was the only admin: B and C remain and B is
    the admin. *)
Lemma rest_leave_effect_witness :
  let r := GroupRoutes.leave (GroupRoutes.mkRequest "A" "g1" "" None)
             env_ok world0 in
  exists g',
    lookup_group (db (world r)) "g1" = Some g'
    /\ members g' = ["B"; "C"] /\ ("A" ∉ admins g') /\ admins g' <> [].
Proof.
  destruct (rest_leave_effect (GroupRoutes.mkRequest "A" "g1" "" None) env_ok
              world0 (mkGroup "g1" "team" ["A"; "B"; "C"] ["A"]))
    as (_ & Hrest).
  - intros c. reflexivity.
  - reflexivity.
  - apply list_elem_of_here.
  - destruct Hrest as (g' & Hg' & Hm & Hna & Hne & _).
    + vm_compute. discriminate.
    + exists g'. split; [exact Hg'|]. split; [exact Hm|]. done.
Defined.

Ltac route_case :=
  match goal with
  | |- context [rejects ?e ?c] => destruct (rejects e c) eqn:?
  | |- context [existsb ?f ?l] => destruct (existsb f l) eqn:?
  | |- context [String.eqb ?a ?b] => destruct (String.eqb a b) eqn:?
  end; simpl.

Lemma filter_ne_two (x a b : string) (l : list string) :
  a <> b -> filter (fun y => y ≠ x) (a :: b :: l) <> [].
Proof.
  intros Hab. rewrite !filter_cons.
  destruct (decide (a ≠ x)); [discriminate|].
  destruct (decide (b ≠ x)); [discriminate|].
  exfalso. apply Hab. transitivity x; [|symmetry].
  - by destruct (decide (a = x)).
  - by destruct (decide (b = x)).
Qed.

(** X17.  The route that takes the admin role away never leaves a group
    without an admin: for a stored group with a non-empty admin list
    without duplicates, whatever the request and whatever the store
    answers, the group is still stored afterwards with a non-empty admin
    list and the same members. *)
Theorem remove_admin_role_keeps_an_admin (req : GroupRoutes.Request)
    (env : Env) (w : World) (g : Group) :
  lookup_group (db w) (GroupRoutes.params_groupId req) = Some g ->
  NoDup (admins g) ->
  admins g <> [] ->
  let r := GroupRoutes.remove_admin_role req env w in
  exists g',
    lookup_group (db (world r)) (GroupRoutes.params_groupId req) = Some g'
    /\ admins g' <> []
    /\ members g' = members g.
Proof.
  intros Hg Hnd Hne r. subst r.
  pose proof (lookup_group_id _ _ _ Hg) as Hgid.
  assert (Hupd : forall ads, ads <> [] ->
            exists g',
              lookup_group
                (update_group (g_id g)
                   (fun _ => mkGroup (g_id g) (name g) (members g) ads) (db w))
                (GroupRoutes.params_groupId req) = Some g'
              /\ admins g' <> [] /\ members g' = members g).
  { intros ads Hads. eexists. split.
    - rewrite <- Hgid in Hg |- *.
      apply (lookup_update_group_at (db w) (g_id g)); [|exact Hg].
      intros x _. reflexivity.
    - done. }
  destruct g as [gi gn gm ga]. simpl in *.
  unfold_route.
  destruct (rejects env GroupFindById) eqn:Hfind;
    repeat (first [rewrite Hfind | rewrite Hg]; simpl);
    [by exists (mkGroup gi gn gm ga)|].
  match goal with
  | |- context [existsb ?f ga] => destruct (existsb f ga) eqn:Hadm
  end; repeat (first [rewrite Hfind | rewrite Hg]; simpl);
    [|by exists (mkGroup gi gn gm ga)].
  destruct ga as [|a [|b ads]]; [done| |].
  - destruct (String.eqb a (GroupRoutes.params_memberId req)) eqn:Ha; simpl;
      [by exists (mkGroup gi gn gm [a])|].
    apply String.eqb_neq in Ha.
    repeat route_case; try (by exists (mkGroup gi gn gm [a])).
    all: apply Hupd; rewrite filter_cons;
      destruct (decide (a ≠ GroupRoutes.params_memberId req)); done.
  - assert (Hab : a <> b).
    { apply NoDup_cons in Hnd as [Hnotin _]. intros ->.
      apply Hnotin. by left. }
    repeat route_case; try (by exists (mkGroup gi gn gm (a :: b :: ads))).
    all: apply Hupd; by apply filter_ne_two.
Qed.

(** A is the only admin of g1 and asks to lose the role: refused, and the
    group keeps its admin. *)
Lemma remove_admin_role_keeps_an_admin_witness :
  let r := GroupRoutes.remove_admin_role
             (GroupRoutes.mkRequest "A" "g1" "A" None) env_ok world0 in
  exists g',
    lookup_group (db (world r)) "g1" = Some g' /\ admins g' <> []
    /\ members g' = ["A"; "B"; "C"].
Proof.
  apply (remove_admin_role_keeps_an_admin
           (GroupRoutes.mkRequest "A" "g1" "A" None) env_ok world0
           (mkGroup "g1" "team" ["A"; "B"; "C"] ["A"])).
  - reflexivity.
  - apply NoDup_singleton.
  - discriminate.
Defined.

(** X18.  The route that removes a member never touches the admin list,
    and it changes the member list only when the requester is an admin of
    the group and the target is a member who is not an admin; the change is
    then the removal of the target.  This holds whatever the store
    answers. *)
Theorem remove_member_guard (req : GroupRoutes.Request) (env : Env)
    (w : World) (g : Group) :
  lookup_group (db w) (GroupRoutes.params_groupId req) = Some g ->
  let r := GroupRoutes.remove_member req env w in
  exists g',
    lookup_group (db (world r)) (GroupRoutes.params_groupId req) = Some g'
    /\ admins g' = admins g
    /\ (members g' = members g
        \/ (GroupRoutes.req_userId req ∈ admins g
            /\ GroupRoutes.params_memberId req ∈ members g
            /\ (GroupRoutes.params_memberId req ∉ admins g)
            /\ members g' =
               filter (fun m => m ≠ GroupRoutes.params_memberId req)
                 (members g))).
Proof.
  intros Hg r. subst r.
  pose proof (lookup_group_id _ _ _ Hg) as Hgid.
  destruct g as [gi gn gm ga]. simpl in *.
  unfold_route.
  destruct (rejects env GroupFindById) eqn:Hfind;
    repeat (first [rewrite Hfind | rewrite Hg]; simpl);
    [exists (mkGroup gi gn gm ga); split; [done|split; [done|by left]]|].
  destruct (existsb (fun a => String.eqb a (GroupRoutes.req_userId req)) ga)
    eqn:Hadm; simpl;
    [|exists (mkGroup gi gn gm ga); split; [done|split; [done|by left]]].
  destruct (existsb (fun m => String.eqb m (GroupRoutes.params_memberId req))
              gm) eqn:Hmem; simpl;
    [|exists (mkGroup gi gn gm ga); split; [done|split; [done|by left]]].
  destruct (existsb (fun a => String.eqb a (GroupRoutes.params_memberId req))
              ga) eqn:Htarget; simpl;
    [exists (mkGroup gi gn gm ga); split; [done|split; [done|by left]]|].
  apply existsb_eqb_elem in Hadm, Hmem.
  apply existsb_eqb_not_elem in Htarget.
  repeat route_case;
    try (exists (mkGroup gi gn gm ga); split; [done|split; [done|by left]]).
  all: eexists; split;
    [ rewrite <- Hgid in Hg |- *;
      apply (lookup_update_group_at (db w) gi); [|exact Hg];
      intros x _; reflexivity
    | split; [reflexivity|right; done] ].
Qed.

(** A asks to remove herself from g1, where she is an admin. *)
Lemma remove_member_guard_witness :
  let req := GroupRoutes.mkRequest "A" "g1" "A" None in
  let r := GroupRoutes.remove_member req env_ok world0 in
  exists g',
    lookup_group (db (world r)) "g1" = Some g'
    /\ admins g' = ["A"]
    /\ (members g' = ["A"; "B"; "C"]
        \/ ("A" ∈ ["A"] /\ "A" ∈ ["A"; "B"; "C"] /\ ("A" ∉ ["A"])
            /\ members g' = filter (fun m => m ≠ "A") ["A"; "B"; "C"])).
Proof.
  apply (remove_member_guard (GroupRoutes.mkRequest "A" "g1" "A" None)
           env_ok world0 (mkGroup "g1" "team" ["A"; "B"; "C"] ["A"])).
  reflexivity.
Defined.

Lemma to_lower_hex_lower c : is_lower_hex_digit c = true -> to_lower_hex c = c.
Proof.
  unfold is_lower_hex_digit, to_lower_hex. cbv zeta.
  generalize (Ascii.nat_of_ascii c). intros n H.
  destruct (Nat.leb 65 n && Nat.leb n 70) eqn:E; [|reflexivity].
  exfalso. apply andb_true_iff in E as [E1 E2].
  apply Nat.leb_le in E1, E2.
  apply orb_true_iff in H as [H|H]; apply andb_true_iff in H as [H1 H2];
    apply Nat.leb_le in H1, H2; lia.
Qed.

(** Casting an id spelled as ids are printed, and printing it, gives the
    string back. *)
Lemma castObjectId_printed s : is_ObjectId_string s = true -> castObjectId s = s.
Proof.
  unfold is_ObjectId_string, castObjectId. intros H.
  apply andb_true_iff in H as [_ H].
  induction s as [|c s IH]; simpl in *; [reflexivity|].
  apply andb_true_iff in H as [Hc Hs].
  rewrite (to_lower_hex_lower c Hc), (IH Hs). reflexivity.
Qed.

Lemma push_new_members_spec (new_ : list UserId) : forall current,
  length (GroupRoutes.push_new_members current new_)
    <= length current + length new_
  /\ (forall m, m ∈ current -> m ∈ GroupRoutes.push_new_members current new_)
  /\ (Forall (fun x => is_ObjectId_string x = true) new_ ->
      NoDup current -> NoDup (GroupRoutes.push_new_members current new_)).
Proof.
  induction new_ as [|x l IH]; intros current; simpl.
  - split; [lia|]. split; done.
  - destruct (existsb (fun m => String.eqb m x) current) eqn:Hx.
    + destruct (IH current) as (Hlen & Hcur & Hnd).
      split; [lia|]. split; [exact Hcur|].
      intros Hall. apply Forall_cons in Hall as [_ Hall]. by apply Hnd.
    + destruct (IH (current ++ [castObjectId x])) as (Hlen & Hcur & Hnd).
      rewrite length_app in Hlen. simpl in Hlen.
      split; [lia|]. split.
      * intros m Hm. apply Hcur, elem_of_app. by left.
      * intros Hall Hc. apply Forall_cons in Hall as [Hprinted Hall].
        apply Hnd; [exact Hall|].
        rewrite (castObjectId_printed x Hprinted).
        apply NoDup_app. split; [exact Hc|].
        split; [|apply NoDup_singleton].
        intros m Hm Hm'. apply list_elem_of_singleton in Hm' as ->.
        apply existsb_eqb_not_elem in Hx. contradiction.
Qed.

#[local] Arguments Nat.ltb : simpl never.
#[local] Arguments GroupRoutes.push_new_members : simpl never.

(** The case where the stored group is the one before. *)
Ltac unchanged_group Hg :=
  match type of Hg with
  | _ = Some ?G =>
      exists G; split; [first [exact Hg | reflexivity]|];
      simpl; intuition
  end.

(** X19.  The add-members route keeps the group-size ceiling and the shape
    of the member list, whatever the store answers: the stored group keeps
    its admins and all its members; if the current members plus the
    submitted ids exceed 100 nothing changes; a group within the ceiling
    stays within it; and, when every submitted id is spelled as ids are
    printed (24 lower-case hexadecimal digits), a member list without
    duplicates stays without duplicates. *)
Theorem add_members_respects_ceiling (req : GroupRoutes.Request)
    (l : list UserId) (env : Env) (w : World) (g : Group) :
  lookup_group (db w) (GroupRoutes.params_groupId req) = Some g ->
  let r := GroupRoutes.add_members (GroupRoutes.members_array l) req env w in
  exists g',
    lookup_group (db (world r)) (GroupRoutes.params_groupId req) = Some g'
    /\ admins g' = admins g
    /\ (forall m, m ∈ members g -> m ∈ members g')
    /\ (GroupRoutes.MAX_GROUP_SIZE < length (members g) + length l ->
        members g' = members g)
    /\ (length (members g) <= GroupRoutes.MAX_GROUP_SIZE ->
        length (members g') <= GroupRoutes.MAX_GROUP_SIZE)
    /\ (Forall (fun x => is_ObjectId_string x = true) l ->
        NoDup (members g) -> NoDup (members g')).
Proof.
  intros Hg r. subst r.
  pose proof (lookup_group_id _ _ _ Hg) as Hgid.
  destruct g as [gi gn gm ga]. simpl in *.
  destruct (push_new_members_spec l gm) as (Hlen & Hcur & Hnd).
  unfold_route.
  destruct (rejects env GroupFindById) eqn:Hfind;
    repeat (first [rewrite Hfind | rewrite Hg]; simpl); [unchanged_group Hg|].
  destruct (existsb (fun a => String.eqb a (GroupRoutes.req_userId req)) ga)
    eqn:Hadm; simpl; [|unchanged_group Hg].
  destruct l as [|x l]; [unchanged_group Hg|].
  cbv beta iota. set (new_ := x :: l) in *.
  match goal with
  | |- context [negb ?b] => destruct (negb b) eqn:Hdup
  end; cbv beta iota; [unchanged_group Hg|].
  match goal with
  | |- context [find ?f new_] => destruct (find f new_) eqn:Hpat
  end; simpl; [unchanged_group Hg|].
  repeat (first [rewrite Hfind | rewrite Hg]; simpl).
  match goal with
  | |- context [Nat.ltb ?a ?b] => destruct (Nat.ltb a b) eqn:Hlim
  end; simpl; [unchanged_group Hg|].
  apply Nat.ltb_ge in Hlim. simpl in Hlen.
  repeat (match goal with
          | |- context [rejects ?e ?c] => destruct (rejects e c) eqn:?
          end; simpl);
    try (unchanged_group Hg).
  all: eexists; split;
    [ rewrite <- Hgid in Hg |- *;
      apply (lookup_update_group_at (db w) gi); [|exact Hg];
      intros y _; reflexivity
    | unfold GroupRoutes.MAX_GROUP_SIZE in *; simpl;
      split; [reflexivity|]; split; [exact Hcur|];
      split; [intros; exfalso; lia|]; split; [intros _; lia|exact Hnd] ].
Qed.

Lemma add_members_respects_ceiling_witness :
  let r := GroupRoutes.add_members
             (GroupRoutes.members_array
                ["0123456789abcdef01234567"; "0123456789abcdef0123456a"])
             (GroupRoutes.mkRequest "A" "g1" "" None) env_ok world0 in
  exists g',
    lookup_group (db (world r)) "g1" = Some g'
    /\ length (members g') <= GroupRoutes.MAX_GROUP_SIZE
    /\ NoDup (members g').
Proof.
  destruct (add_members_respects_ceiling
              (GroupRoutes.mkRequest "A" "g1" "" None)
              ["0123456789abcdef01234567"; "0123456789abcdef0123456a"]
              env_ok world0 (mkGroup "g1" "team" ["A"; "B"; "C"] ["A"]))
    as (g' & Hg' & _ & _ & _ & Hlen & Hnd).
  - reflexivity.
  - exists g'. split; [exact Hg'|]. split.
    + apply Hlen. vm_compute. lia.
    + apply Hnd.
      * repeat constructor.
      * simpl. repeat (apply NoDup_cons; split;
          [rewrite ?elem_of_cons, elem_of_nil; intuition discriminate|]).
        apply NoDup_nil. done.
Defined.

(** The hypothesis on the spelling is needed.  Bob is a member of the
    group; an admin submits his id in upper case.  The test of the loop
    compares the printed ids with the submitted string, finds no equal one,
    and the id is pushed: cast, it is Bob's, who is now twice in the stored
    member list. *)
Lemma add_members_other_spelling_duplicates :
  let req := GroupRoutes.mkRequest id_a "111111111111111111111111" "" None in
  let r := GroupRoutes.add_members
             (GroupRoutes.members_array ["BBBBBBBBBBBBBBBBBBBBBBBB"])
             req env_ok world1 in
  outcome r = Ok (GroupRoutes.mkResponse 200 "Members added successfully")
  /\ (members <$> lookup_group (db (world r)) "111111111111111111111111")
     = Some [id_a; id_b; id_b].
Proof. vm_compute. split; reflexivity. Qed.

(** X20.  Deleting a group through the REST route, asked by one of its
    admins with every store call succeeding, removes the group and exactly
    the messages of that group: every other message, direct or of another
    group, is kept. *)
Theorem delete_group_effect (req : GroupRoutes.Request) (env : Env)
    (w : World) (g : Group) :
  all_succeed env ->
  lookup_group (db w) (GroupRoutes.params_groupId req) = Some g ->
  GroupRoutes.req_userId req ∈ admins g ->
  let r := GroupRoutes.delete_group req env w in
  let gid := GroupRoutes.params_groupId req in
  outcome r = Ok (GroupRoutes.mkResponse 200 "Group deleted successfully")
  /\ lookup_group (db (world r)) gid = None
  /\ (forall m, m ∈ messages (db (world r)) <->
                m ∈ messages (db w) /\ group m <> Some gid).
Proof.
  intros Hall Hg Hadm r gid. subst r gid.
  pose proof (proj2 (existsb_eqb_elem _ _) Hadm) as Hex.
  unfold_route.
  repeat (first [rewrite Hall | rewrite Hg | rewrite Hex]; simpl).
  split; [reflexivity|]. split.
  - unfold lookup_group. simpl. apply lookup_group_deleted.
  - intros m. rewrite list_elem_of_filter. tauto.
Qed.

Lemma delete_group_effect_witness :
  let r := GroupRoutes.delete_group (GroupRoutes.mkRequest "A" "g2" "" None)
             env_ok world0 in
  lookup_group (db (world r)) "g2" = None
  /\ length (messages (db (world r))) = 3.
Proof.
  destruct (delete_group_effect (GroupRoutes.mkRequest "A" "g2" "" None)
              env_ok world0 (mkGroup "g2" "solo" ["A"] ["A"]))
    as (_ & Hgone & _).
  - intros c. reflexivity.
  - reflexivity.
  - apply list_elem_of_here.
  - split; [exact Hgone|]. vm_compute. reflexivity.
Defined.

(** X21.  The deletion is two separate writes.  When the messages are
    deleted and the deletion of the group document then rejects, the route
    answers 500 and the group is still stored, but its messages are gone
    for good. *)
Theorem delete_group_is_not_atomic (req : GroupRoutes.Request) (env : Env)
    (w : World) (g : Group) :
  rejects env GroupFindById = false ->
  rejects env MessageDeleteMany = false ->
  rejects env GroupFindByIdAndDelete = true ->
  lookup_group (db w) (GroupRoutes.params_groupId req) = Some g ->
  GroupRoutes.req_userId req ∈ admins g ->
  let r := GroupRoutes.delete_group req env w in
  let gid := GroupRoutes.params_groupId req in
  outcome r = Ok (GroupRoutes.mkResponse 500 "error.message")
  /\ lookup_group (db (world r)) gid = Some g
  /\ (forall m, m ∈ messages (db (world r)) -> group m <> Some gid).
Proof.
  intros Hf Hdm Hdel Hg Hadm r gid. subst r gid.
  pose proof (proj2 (existsb_eqb_elem _ _) Hadm) as Hex.
  unfold_route.
  repeat (first [rewrite Hf | rewrite Hdm | rewrite Hdel | rewrite Hg
                | rewrite Hex]; simpl).
  split; [reflexivity|]. split; [exact Hg|].
  intros m Hin. apply list_elem_of_filter in Hin as [Hne _]. exact Hne.
Qed.

Lemma delete_group_is_not_atomic_witness :
  let r := GroupRoutes.delete_group (GroupRoutes.mkRequest "A" "g1" "" None)
             (env_rejecting GroupFindByIdAndDelete) world0 in
  lookup_group (db (world r)) "g1"
  = Some (mkGroup "g1" "team" ["A"; "B"; "C"] ["A"])
  /\ length (messages (db world0)) = 4
  /\ length (messages (db (world r))) = 3.
Proof.
  destruct (delete_group_is_not_atomic
              (GroupRoutes.mkRequest "A" "g1" "" None)
              (env_rejecting GroupFindByIdAndDelete) world0
              (mkGroup "g1" "team" ["A"; "B"; "C"] ["A"]))
    as (_ & Hkept & _); try reflexivity.
  - apply list_elem_of_here.
  - split; [exact Hkept|]. split; vm_compute; reflexivity.
Defined.

(** X22.  Promotion through the REST route keeps the admin list well
    formed, whatever the store answers: the members are untouched, an admin
    list without duplicates stays without duplicates, and whoever is admin
    afterwards was an admin before or is a member of the group. *)
Theorem make_admin_keeps_admins_well_formed (req : GroupRoutes.Request)
    (env : Env) (w : World) (g : Group) :
  lookup_group (db w) (GroupRoutes.params_groupId req) = Some g ->
  let r := GroupRoutes.make_admin req env w in
  exists g',
    lookup_group (db (world r)) (GroupRoutes.params_groupId req) = Some g'
    /\ members g' = members g
    /\ (NoDup (admins g) -> NoDup (admins g'))
    /\ (forall a, a ∈ admins g' -> a ∈ admins g \/ a ∈ members g).
Proof.
  intros Hg r. subst r.
  pose proof (lookup_group_id _ _ _ Hg) as Hgid.
  destruct g as [gi gn gm ga]. simpl in *.
  unfold_route.
  destruct (rejects env GroupFindById) eqn:Hfind;
    repeat (first [rewrite Hfind | rewrite Hg]; simpl); [unchanged_group Hg|].
  destruct (existsb (fun a => String.eqb a (GroupRoutes.req_userId req)) ga)
    eqn:Hadm; repeat (first [rewrite Hfind | rewrite Hg]; simpl);
    [|unchanged_group Hg].
  destruct (existsb (fun m => String.eqb m (GroupRoutes.params_memberId req))
              gm) eqn:Hmem; simpl; [|unchanged_group Hg].
  destruct (existsb (fun a => String.eqb a (GroupRoutes.params_memberId req))
              ga) eqn:Htarget; simpl; [unchanged_group Hg|].
  apply existsb_eqb_elem in Hmem. apply existsb_eqb_not_elem in Htarget.
  repeat (match goal with
          | |- context [rejects ?e ?c] => destruct (rejects e c) eqn:?
          end; simpl);
    try (unchanged_group Hg).
  all: eexists; split;
    [ rewrite <- Hgid in Hg |- *;
      apply (lookup_update_group_at (db w) gi); [|exact Hg];
      intros y _; reflexivity
    | simpl; split; [reflexivity|]; split;
      [ intros Hnd; apply NoDup_app; split; [exact Hnd|];
        split; [|apply NoDup_singleton];
        intros a Ha Ha'; apply list_elem_of_singleton in Ha' as ->;
        contradiction
      | intros a Ha; apply elem_of_app in Ha as [Ha|Ha]; [by left|];
        apply list_elem_of_singleton in Ha as ->; by right ] ].
Qed.

(** A promotes B in g1. *)
Lemma make_admin_keeps_admins_well_formed_witness :
  let r := GroupRoutes.make_admin (GroupRoutes.mkRequest "A" "g1" "B" None)
             env_ok world0 in
  exists g',
    lookup_group (db (world r)) "g1" = Some g'
    /\ members g' = ["A"; "B"; "C"]
    /\ (NoDup ["A"] -> NoDup (admins g'))
    /\ (forall a, a ∈ admins g' -> a ∈ ["A"] \/ a ∈ ["A"; "B"; "C"]).
Proof.
  apply (make_admin_keeps_admins_well_formed
           (GroupRoutes.mkRequest "A" "g1" "B" None) env_ok world0
           (mkGroup "g1" "team" ["A"; "B"; "C"] ["A"])).
  reflexivity.
Defined.

(** ** Creating a group over the socket *)

Lemma find_socket_by_id (l : list Socket) (sid : SocketId) :
  (exists s, s ∈ l /\ id s = sid) ->
  exists s, find (fun s => bool_decide (id s = sid)) l = Some s /\ id s = sid.
Proof.
  intros (s & Hin & Hid). induction l as [|x l IH]; simpl.
  - by apply elem_of_nil in Hin.
  - destruct (bool_decide (id x = sid)) eqn:Hx.
    + apply bool_decide_eq_true in Hx. eauto.
    + apply elem_of_cons in Hin as [->|Hin]; [|by apply IH].
      apply bool_decide_eq_false in Hx. contradiction.
Qed.

(** One [join_member]: only the room table changes, no socket leaves a
    room, and the live socket of the member, if any, is in the room. *)
Lemma join_member_run room memberId env w :
  exists rs,
    join_member room memberId env w =
      mkRun (Ok tt) (mkWorld (onlineUsers w) (sockets w) rs (db w)) []
    /\ (forall r s, s ∈ room_members (rooms w) r -> s ∈ room_members rs r)
    /\ (forall sid,
          Map_get (onlineUsers w) memberId = Some sid -> sid <> "" ->
          (exists s, s ∈ sockets w /\ id s = sid) ->
          sid ∈ room_members rs room).
Proof.
  unfold join_member. cbv [mbind M_bind get_world mret M_ret]. simpl.
  destruct (Map_get (onlineUsers w) memberId) as [sid|] eqn:Hget.
  - destruct (truthy sid) eqn:Ht.
    + destruct (find _ (sockets w)) as [ms|] eqn:Hfind.
      * exists (<[room := {[id ms]} ∪ room_members (rooms w) room]> (rooms w)).
        split; [reflexivity|]. split.
        -- intros r s Hs. apply room_members_join. by left.
        -- intros sid' [= <-] _ Hex.
           destruct (find_socket_by_id _ _ Hex) as (s' & Hs' & Hid).
           rewrite Hfind in Hs'. injection Hs' as ->.
           apply room_members_join. right. done.
      * exists (rooms w). split; [by destruct w|]. split; [done|].
        intros sid' [= <-] _ Hex.
        destruct (find_socket_by_id _ _ Hex) as (s' & Hs' & _).
        rewrite Hfind in Hs'. discriminate.
    + exists (rooms w). split; [by destruct w|]. split; [done|].
      intros sid' [= <-] Hne. exfalso.
      apply negb_false_iff, String.eqb_eq in Ht. contradiction.
  - exists (rooms w). split; [by destruct w|]. split; [done|].
    intros sid' [=].
Qed.

Lemma forEach_join_member_run room (ms : list UserId) env : forall w,
  exists rs,
    forEach ms (join_member room) env w =
      mkRun (Ok tt) (mkWorld (onlineUsers w) (sockets w) rs (db w)) []
    /\ (forall r s, s ∈ room_members (rooms w) r -> s ∈ room_members rs r)
    /\ (forall m sid,
          m ∈ ms ->
          Map_get (onlineUsers w) m = Some sid -> sid <> "" ->
          (exists s, s ∈ sockets w /\ id s = sid) ->
          sid ∈ room_members rs room).
Proof.
  induction ms as [|x ms IH]; intros w; simpl.
  - exists (rooms w). split; [by destruct w|]. split; [done|].
    intros m sid Hin. by apply elem_of_nil in Hin.
  - rewrite bind_run.
    destruct (join_member_run room x env w) as (rs1 & -> & Hmono1 & Hjoin1).
    cbn [outcome world effects].
    destruct (IH (mkWorld (onlineUsers w) (sockets w) rs1 (db w)))
      as (rs2 & -> & Hmono2 & Hjoin2).
    cbn [outcome world effects onlineUsers sockets rooms db app] in *.
    exists rs2. split; [reflexivity|]. split; [by auto|].
    intros m sid Hin Hget Hne Hex.
    apply elem_of_cons in Hin as [->|Hin].
    + apply Hmono2. by apply Hjoin1.
    + by apply (Hjoin2 m).
Qed.

(** X23.  A [create-group] with a non-empty name and an array of member ids
    spelled as ids are printed (24 lower-case hexadecimal digits), the
    store calls succeeding, stores a group whose members are the submitted
    ids followed by the creator and whose only admin is the creator.  The
    creator's socket and the live socket of every submitted member that is
    online are in the group's room when [group-created] is sent to it, and
    the event is sent once more to the creator's socket: the creator gets
    it twice.  The two events carry one document, which bears the id of the
    stored group. *)
Theorem create_group_over_socket (socket : Socket) (data : CreateGroup)
    (nm : string) (ms : list UserId) (env : Env) (w : World) :
  cg_name data = Some nm -> nm <> "" ->
  cg_members data = Some ms ->
  Forall (fun m => is_ObjectId_string m = true) ms ->
  rejects env GroupCreate = false ->
  rejects env (GroupPopulate "members") = false ->
  rejects env (GroupPopulate "admins") = false ->
  let r := on_create_group socket (Some data) env w in
  let g := mkGroup (new_group_id env) nm (ms ++ [userId socket])
             [userId socket] in
  groups (db (world r)) = groups (db w) ++ [g]
  /\ (exists p,
        g_id p = g_id g
        /\ emits (effects r) =
             [Emit (ToRoom (g_id g)) (group_created p);
              Emit (ToSocket (id socket)) (group_created p)])
  /\ id socket ∈ recipients (world r) (ToRoom (g_id g))
  /\ (forall m sid,
        m ∈ ms ->
        Map_get (onlineUsers w) m = Some sid -> sid <> "" ->
        (exists s, s ∈ sockets w /\ id s = sid) ->
        sid ∈ recipients (world r) (ToRoom (g_id g))).
Proof.
  intros Hname Hne Hms _ Hc Hp1 Hp2 r g. subst r g.
  assert (Ht : truthy nm = true).
  { unfold truthy. apply negb_true_iff, String.eqb_neq. exact Hne. }
  unfold_run. simpl. rewrite Hms, Hname. simpl. rewrite Ht, Hc. simpl.
  rewrite Hp1. simpl. rewrite Hp2. simpl.
  match goal with
  | |- context [forEach ms ?f env ?w1] =>
      destruct (forEach_join_member_run (new_group_id env) ms env w1)
        as (rs & -> & Hmono & Hjoin)
  end.
  simpl in *. split; [reflexivity|].
  split; [eexists; split; [|reflexivity]; reflexivity|]. split.
  - apply Hmono. apply room_members_join. right. done.
  - intros m sid Hin Hget Hsid Hex. by apply (Hjoin m).
Qed.

(** Alice creates a group with Bob, who is online: both sockets are in the
    new room. *)
Lemma create_group_over_socket_witness :
  let r := on_create_group alice1
             (Some (mkCreateGroup (Some "ab") (Some [id_b]))) env_ok world1 in
  "s-alice" ∈ recipients (world r) (ToRoom "g9")
  /\ "s-bob" ∈ recipients (world r) (ToRoom "g9").
Proof.
  destruct (create_group_over_socket alice1
              (mkCreateGroup (Some "ab") (Some [id_b])) "ab" [id_b] env_ok
              world1) as (_ & _ & Hcreator & Hmembers);
    try reflexivity; try discriminate.
  - repeat constructor.
  - split; [exact Hcreator|].
    apply (Hmembers id_b "s-bob").
    + apply list_elem_of_here.
    + reflexivity.
    + discriminate.
    + exists bob1. split; [|reflexivity].
      apply list_elem_of_further, list_elem_of_here.
Defined.

(** ** Creating a group through the REST route *)

Lemma uniqueMembers_length (l : list UserId) : forall seen,
  length (GroupRoutes.uniqueMembers seen l) <= length l.
Proof.
  induction l as [|x l IH]; intros seen; simpl; [lia|].
  destruct (existsb (String.eqb x) seen); simpl.
  - specialize (IH seen). lia.
  - specialize (IH (x :: seen)). lia.
Qed.

Lemma existsb_eqb_elem' (x : string) (l : list string) :
  existsb (String.eqb x) l = true <-> x ∈ l.
Proof.
  induction l as [|y l IH]; simpl.
  - split; [discriminate|]. intros H. by apply elem_of_nil in H.
  - rewrite orb_true_iff, IH, elem_of_cons, String.eqb_eq. tauto.
Qed.

Lemma uniqueMembers_NoDup (l : list UserId) : forall seen,
  length (GroupRoutes.uniqueMembers seen l) = length l ->
  NoDup l /\ (forall x, x ∈ l -> x ∉ seen).
Proof.
  induction l as [|x l IH]; intros seen; simpl.
  - intros _. split; [apply NoDup_nil; done|].
    intros y H. by apply elem_of_nil in H.
  - destruct (existsb (String.eqb x) seen) eqn:Hx; simpl.
    + intros Hlen. pose proof (uniqueMembers_length l seen). lia.
    + intros [= Hlen]. destruct (IH _ Hlen) as [Hnd Hfresh].
      assert (Hxs : x ∉ seen).
      { intros Hin. apply existsb_eqb_elem' in Hin. congruence. }
      split.
      * apply NoDup_cons. split; [|exact Hnd].
        intros Hin. apply (Hfresh x Hin). by left.
      * intros y Hy. apply elem_of_cons in Hy as [->|Hy]; [exact Hxs|].
        intros Hin. apply (Hfresh y Hy). by right.
Qed.

(** [validateGroupData] answers without touching anything, and lets a
    request through only with a name of 3 to 50 characters once trimmed. *)
Lemma validateGroupData_run name_ members_ req env w :
  exists res,
    GroupRoutes.validateGroupData name_ members_ req env w = mkRun (Ok res) w []
    /\ (forall res', res = inl res' -> GroupRoutes.status res' = 400)
    /\ (forall req', res = inr req' ->
          req' = req
          /\ exists nm, name_ = Some nm
                        /\ 3 <= String.length (trim nm)
                        /\ String.length (trim nm) <= 50).
Proof.
  unfold GroupRoutes.validateGroupData.
  destruct name_ as [nm|]; simpl;
    [|eexists; split; [reflexivity|split; [by intros ? [= <-]|intros ? [=]]]].
  destruct (truthy nm); simpl; [|eexists; split; [reflexivity|split; [by intros ? [= <-]|intros ? [=]]]].
  destruct (Nat.eqb (String.length (trim nm)) 0) eqn:H0; simpl;
    [eexists; split; [reflexivity|split; [by intros ? [= <-]|intros ? [=]]]|].
  destruct (Nat.ltb (String.length (trim nm)) 3) eqn:H3; simpl;
    [eexists; split; [reflexivity|split; [by intros ? [= <-]|intros ? [=]]]|].
  destruct (Nat.ltb 50 (String.length (trim nm))) eqn:H50; simpl;
    [eexists; split; [reflexivity|split; [by intros ? [= <-]|intros ? [=]]]|].
  apply Nat.ltb_ge in H3, H50.
  destruct members_ as [| |[|x l]]; simpl;
    eexists; (split; [reflexivity|]);
    (split; [by intros ? [= <-]|]); intros req' [=]; subst; eauto.
Qed.

(** [validateMembers] answers without touching anything, and lets a
    request through only with a non-empty array of pairwise different
    strings that all have the shape of an ObjectId. *)
Lemma validateMembers_run members_ req env w :
  exists res,
    GroupRoutes.validateMembers members_ req env w = mkRun (Ok res) w []
    /\ (forall res', res = inl res' -> GroupRoutes.status res' = 400)
    /\ (forall req', res = inr req' ->
          req' = req
          /\ exists l, members_ = GroupRoutes.members_array l
                       /\ l <> [] /\ NoDup l
                       /\ (forall x, x ∈ l ->
                             GroupRoutes.validObjectIdPattern x = true)).
Proof.
  unfold GroupRoutes.validateMembers.
  destruct members_ as [| |l0]; simpl;
    try (eexists; split; [reflexivity|split; [by intros ? [= <-]|intros ? [=]]]).
  destruct l0 as [|x l];
    [eexists; split; [reflexivity|split; [by intros ? [= <-]|intros ? [=]]]|].
  set (l0 := x :: l).
  destruct (negb (Nat.eqb (length (GroupRoutes.uniqueMembers [] l0))
                    (length l0))) eqn:Hdup;
    [eexists; split; [reflexivity|split; [by intros ? [= <-]|intros ? [=]]]|].
  destruct (find (fun memberId => negb (GroupRoutes.validObjectIdPattern
                                          memberId)) l0)
    as [bad|] eqn:Hfind;
    [eexists; split; [reflexivity|split; [by intros ? [= <-]|intros ? [=]]]|].
  eexists. split; [reflexivity|]. split; [intros ? [=]|].
  intros req' [= <-]. split; [reflexivity|].
  exists l0. split; [reflexivity|]. split; [discriminate|].
  apply negb_false_iff, Nat.eqb_eq in Hdup.
  split; [by apply (uniqueMembers_NoDup l0 [])|].
  intros y Hy. apply list_elem_of_In in Hy.
  pose proof (find_none _ _ Hfind y Hy) as Hv. simpl in Hv.
  by apply negb_false_iff in Hv.
Qed.

Lemma castObjectId_printed_list (l : list UserId) :
  Forall (fun x => is_ObjectId_string x = true) l -> castObjectId <$> l = l.
Proof.
  induction 1 as [|x l Hx _ IH]; simpl; [reflexivity|].
  rewrite (castObjectId_printed x Hx). f_equal. exact IH.
Qed.

(** X24.  The REST route creates a group only from a body it has
    validated.  For a name of ASCII text, when it answers 201: the name has
    3 to 50 characters once trimmed; the submitted members are a non-empty
    array of pairwise different strings, each of 24 hexadecimal digits; and
    the stored group has the trimmed name, the submitted ids as they are
    printed (in lower case) followed by the creator, and the creator as its
    only admin.  When every id is submitted in the printed spelling the
    stored members are the submitted strings themselves, hence pairwise
    different ids; two spellings of one id are different strings and pass
    the validation. *)
Theorem rest_create_group (name_ : option string)
    (members_ : GroupRoutes.MembersField) (req : GroupRoutes.Request)
    (env : Env) (w : World) :
  (forall nm, name_ = Some nm -> is_ascii_text nm = true) ->
  let r := GroupRoutes.create name_ members_ req env w in
  outcome r = Ok (GroupRoutes.mkResponse 201 "Group created successfully") ->
  exists nm l,
    name_ = Some nm /\ members_ = GroupRoutes.members_array l
    /\ 3 <= String.length (trim nm) /\ String.length (trim nm) <= 50
    /\ l <> [] /\ NoDup l
    /\ (forall x, x ∈ l -> GroupRoutes.validObjectIdPattern x = true)
    /\ groups (db (world r)) =
       groups (db w)
       ++ [mkGroup (new_group_id env) (trim nm)
             ((castObjectId <$> l) ++ [GroupRoutes.req_userId req])
             [GroupRoutes.req_userId req]]
    /\ (Forall (fun x => is_ObjectId_string x = true) l ->
        castObjectId <$> l = l).
Proof.
  intros _ r. subst r. unfold GroupRoutes.create. simpl GroupRoutes.route.
  rewrite bind_run.
  destruct (validateGroupData_run name_ members_ req env w)
    as (res1 & -> & Hbad1 & Hname).
  destruct res1 as [res|req1];
    [cbn; intros [= ->]; specialize (Hbad1 _ eq_refl); discriminate Hbad1|].
  destruct (Hname req1 eq_refl) as (-> & nm & -> & Hlo & Hhi).
  cbn [outcome world effects]. rewrite bind_run.
  destruct (validateMembers_run members_ req env w)
    as (res2 & -> & Hbad2 & Hmem).
  destruct res2 as [res|req2];
    [cbn; intros [= ->]; specialize (Hbad2 _ eq_refl); discriminate Hbad2|].
  destruct (Hmem req2 eq_refl) as (-> & l & -> & Hl & Hnd & Hvalid).
  cbn [outcome world effects app].
  cbv [try_catch mbind M_bind mret M_ret throw Group_create Group_populate
       GroupRoutes.respond_500 store_call modify_db get_world put_world
       get_env default].
  destruct (rejects env GroupCreate); simpl; [intros [=]|].
  destruct (rejects env (GroupPopulate "members")); simpl; [intros [=]|].
  destruct (rejects env (GroupPopulate "admins")); simpl; [intros [=]|].
  intros _. exists nm, l.
  repeat (split; [done|]). apply castObjectId_printed_list.
Qed.

(** Alice creates the group "readers" with Carol, whose id is submitted in
    upper case: the group holds it as it is printed. *)
Lemma rest_create_group_witness :
  let r := GroupRoutes.create (Some "  readers  ")
             (GroupRoutes.members_array ["CCCCCCCCCCCCCCCCCCCCCCCC"])
             (GroupRoutes.mkRequest id_a "" "" None) env_ok world1 in
  exists nm l,
    Some "  readers  " = Some nm
    /\ GroupRoutes.members_array ["CCCCCCCCCCCCCCCCCCCCCCCC"]
       = GroupRoutes.members_array l
    /\ 3 <= String.length (trim nm) /\ String.length (trim nm) <= 50
    /\ l <> [] /\ NoDup l
    /\ (forall x, x ∈ l -> GroupRoutes.validObjectIdPattern x = true)
    /\ groups (db (world r)) =
       groups (db world1)
       ++ [mkGroup "g9" (trim nm) ((castObjectId <$> l) ++ [id_a]) [id_a]]
    /\ (Forall (fun x => is_ObjectId_string x = true) l ->
        castObjectId <$> l = l).
Proof.
  apply (rest_create_group (Some "  readers  ")
           (GroupRoutes.members_array ["CCCCCCCCCCCCCCCCCCCCCCCC"])
           (GroupRoutes.mkRequest id_a "" "" None) env_ok world1).
  - intros nm [= <-]. reflexivity.
  - vm_compute. reflexivity.
Defined.

(** ** The REST authentication middleware and the REST group message *)

(** The first four parts of the statement below, for a refusal. *)
Ltac refused :=
  split; [reflexivity|]; split; [reflexivity|];
  split; [intros ? [= <-]; reflexivity|]; split; [intros ? [=]|].

(** X25.  [authMiddleware] touches nothing and answers 401 to every
    request it refuses; a request it lets through carries a user of the
    User store whose id the verifier decoded from the header once the
    first ["Bearer "] is removed.  A header made of ["Bearer "] and a
    non-empty token that decodes to a stored user is let through as that
    user, if the lookup does not reject. *)
Theorem authMiddleware_binds_known_user (authorization : option string)
    (env : Env) (w : World) :
  let r := authMiddleware authorization env w in
  world r = w
  /\ emits (effects r) = []
  /\ (forall res, outcome r = Ok (inl res) -> GroupRoutes.status res = 401)
  /\ (forall u, outcome r = Ok (inr u) ->
        u ∈ users (db w)
        /\ exists h, authorization = Some h
                     /\ jwt_verify env (remove_first "Bearer " h)
                        = Some (u_id u))
  /\ (forall t u,
        authorization = Some (String.append "Bearer " t) ->
        t <> "" ->
        jwt_verify env t = Some (u_id u) ->
        lookup_user (db w) (u_id u) = Some u ->
        rejects env UserFindById = false ->
        outcome r = Ok (inr u)).
Proof.
  cbv [authMiddleware try_catch mbind M_bind mret M_ret throw User_findById
       store_call get_env get_world].
  assert (Hstrip : forall t, remove_first "Bearer " (String.append "Bearer " t)
                             = t) by reflexivity.
  destruct authorization as [h|]; simpl.
  - destruct (truthy (remove_first "Bearer " h)) eqn:Ht; simpl.
    + destruct (jwt_verify env (remove_first "Bearer " h)) as [uid|] eqn:Hv;
        simpl.
      * destruct (rejects env UserFindById) eqn:Hr; simpl.
        -- refused. intros t u0 _ _ _ _ Hrej. discriminate Hrej.
        -- destruct (lookup_user (db w) uid) as [u1|] eqn:Hu; simpl.
           ++ split; [reflexivity|]. split; [reflexivity|].
              split; [intros ? [=]|]. split.
              ** intros u0 [= <-].
                 destruct (lookup_user_id _ _ _ Hu) as [<- Hin]. eauto.
              ** intros t u0 [= ->] _ Hv' Hu' _. rewrite Hstrip in Hv.
                 rewrite Hv' in Hv. injection Hv as <-. congruence.
           ++ refused. intros t u0 [= ->] _ Hv' Hu' _. rewrite Hstrip in Hv.
              rewrite Hv' in Hv. injection Hv as <-. congruence.
      * refused. intros t u0 [= ->] _ Hv' _ _. rewrite Hstrip in Hv.
        congruence.
    + refused. intros t u0 [= ->] Hne _ _ _. rewrite Hstrip in Ht.
      apply negb_false_iff, String.eqb_eq in Ht. contradiction.
  - refused. intros t u0 [=].
Qed.

Lemma authMiddleware_binds_known_user_witness :
  outcome (authMiddleware (Some "Bearer token-of-A") env_ok world0)
  = Ok (inr (mkUser "A" "alice" true None)).
Proof.
  destruct (authMiddleware_binds_known_user (Some "Bearer token-of-A") env_ok
              world0) as (_ & _ & _ & _ & Hin).
  apply (Hin "token-of-A" (mkUser "A" "alice" true None));
    try reflexivity. discriminate.
Defined.

Lemma trimEnd_cons c s :
  trimEnd (String c s) =
    match trimEnd s with
    | EmptyString => if is_space c then EmptyString else String c EmptyString
    | r => String c r
    end.
Proof. reflexivity. Qed.

Lemma trimEnd_idempotent s : trimEnd (trimEnd s) = trimEnd s.
Proof.
  induction s as [|c s IH]; [reflexivity|].
  rewrite trimEnd_cons. destruct (trimEnd s) as [|c' r] eqn:E.
  - destruct (is_space c) eqn:Ec; [reflexivity|].
    rewrite trimEnd_cons. simpl. rewrite Ec. reflexivity.
  - rewrite trimEnd_cons, IH. reflexivity.
Qed.

Lemma trimStart_head s :
  trimStart s = EmptyString
  \/ exists c r, trimStart s = String c r /\ is_space c = false.
Proof.
  induction s as [|c s IH]; simpl; [by left|].
  destruct (is_space c) eqn:Ec; [exact IH|].
  right. by exists c, s.
Qed.

Lemma trimEnd_head c s :
  is_space c = false -> exists r, trimEnd (String c s) = String c r.
Proof.
  intros Hc. rewrite trimEnd_cons. destruct (trimEnd s) as [|c' r].
  - rewrite Hc. by eexists.
  - by eexists.
Qed.

(** Trimmed text is trimmed. *)
Lemma trim_idempotent s : trim (trim s) = trim s.
Proof.
  unfold trim. destruct (trimStart_head s) as [->|(c & r & -> & Hc)];
    [reflexivity|].
  destruct (trimEnd_head c r Hc) as (r' & Hr'). rewrite Hr'.
  simpl trimStart. rewrite Hc, <- Hr'. apply trimEnd_idempotent.
Qed.

(** X26.  The REST route that sends a group message writes at most one
    record, and only for a requester who is a persisted member of the
    group: the record carries the group and no receiver, the requester as
    sender and, as its content, the submitted content trimmed, which is not
    empty and is itself trimmed.  This holds for every body whose content
    is ASCII text and whatever the store answers. *)
Theorem rest_group_message_record (content_ messageType_ : option string)
    (req : GroupRoutes.Request) (env : Env) (w : World) (g : Group) :
  (forall c, content_ = Some c -> is_ascii_text c = true) ->
  lookup_group (db w) (GroupRoutes.params_groupId req) = Some g ->
  let r := GroupRoutes.send_message content_ messageType_ req env w in
  messages (db (world r)) = messages (db w)
  \/ exists m c,
       messages (db (world r)) = messages (db w) ++ [m]
       /\ GroupRoutes.req_userId req ∈ members g
       /\ sender m = Some (GroupRoutes.req_userId req)
       /\ receiver m = None
       /\ group m = Some (GroupRoutes.params_groupId req)
       /\ content_ = Some c
       /\ content m = Some (trim c) /\ trim c <> "" /\ trim (trim c) = trim c
       /\ exactly_one_target m = true.
Proof.
  intros _ Hg r. subst r. unfold_route.
  destruct (rejects env GroupFindById) eqn:Hfind;
    repeat (first [rewrite Hfind | rewrite Hg]; simpl); [by left|].
  match goal with
  | |- context [existsb ?f (members g)] =>
      destruct (existsb f (members g)) eqn:Hmem
  end; repeat (first [rewrite Hfind | rewrite Hg]; simpl); [|by left].
  apply existsb_eqb_elem in Hmem.
  destruct content_ as [c|]; simpl; [|by left].
  match goal with
  | |- context [if ?b then _ else _] => destruct b eqn:Hblank
  end; simpl; [by left|].
  match goal with
  | |- context [validate_Message ?m] => destruct (validate_Message m) eqn:Hv
  end; simpl; [|by left].
  destruct (rejects env MessageSave); simpl; [by left|].
  right.
  apply orb_false_iff in Hblank as [_ Hlen].
  assert (Hne : trim c <> "").
  { intros Hempty. rewrite Hempty in Hlen. discriminate Hlen. }
  exists (mkMessage (fresh_id (messages (db w)))
            (Some (GroupRoutes.req_userId req)) None (Some (trim c))
            (or_default messageType_ "text") false None
            (Some (GroupRoutes.params_groupId req))), c.
  destruct (rejects env (MessagePopulate "sender")); simpl;
    rewrite trim_idempotent;
    (split; [reflexivity|]); (split; [exact Hmem|]);
    repeat (split; [reflexivity|]);
    (split; [exact Hne|]); (split; reflexivity).
Qed.

(** Bob, a member of the team, posts " hi ": the record holds "hi". *)
Lemma rest_group_message_record_witness :
  let gid := "111111111111111111111111" in
  let r := GroupRoutes.send_message (Some " hi ") None
             (GroupRoutes.mkRequest id_b gid "" None) env_ok world1 in
  exists m,
    messages (db (world r)) = messages (db world1) ++ [m]
    /\ sender m = Some id_b /\ group m = Some gid /\ content m = Some "hi".
Proof.
  destruct (rest_group_message_record (Some " hi ") None
              (GroupRoutes.mkRequest id_b "111111111111111111111111" "" None)
              env_ok world1
              (mkGroup "111111111111111111111111" "team" [id_a; id_b] [id_a]))
    as [Hsame | (m & c & Hm & _ & Hs & _ & Hgr & [= <-] & Hc & _)].
  - intros c [= <-]. reflexivity.
  - reflexivity.
  - exfalso. vm_compute in Hsame.
    apply (f_equal (@length Message)) in Hsame. discriminate Hsame.
  - exists m. split; [exact Hm|]. split; [exact Hs|]. split; [exact Hgr|].
    exact Hc.
Defined.

(** ** Group typing *)

(** X27.  A [group-typing] or [group-stop-typing] signal is addressed to
    the group's room except the sender's socket: it reaches the socket of a
    member whose [connection] handler has run with a successful group
    lookup, and never the sender's own socket. *)
Theorem group_typing_reaches_connected_members (member sender_ : Socket)
    (env : Env) (w : World) (g : Group) :
  rejects env GroupFind = false ->
  g ∈ groups (db w) ->
  userId member ∈ members g ->
  id member <> id sender_ ->
  let w' := world (on_connection member env w) in
  forall to_ signal,
    (to_, signal) ∈ match on_group_typing sender_ (Some (g_id g)),
                          on_group_stop_typing sender_ (Some (g_id g)) with
                    | Ok l1, Ok l2 => l1 ++ l2
                    | _, _ => []
                    end ->
    id member ∈ recipients w' to_ /\ (id sender_ ∉ recipients w' to_).
Proof.
  intros Hfind Hg Hm Hne w' to_ signal Hin. subst w'.
  destruct (connection_joins_member_rooms member env w Hfind)
    as (Hjoin & _).
  simpl in Hin.
  assert (Hto : to_ = ToRoomExcept (g_id g) (id sender_)).
  { apply elem_of_cons in Hin as [[= -> _]|Hin]; [reflexivity|].
    apply elem_of_cons in Hin as [[= -> _]|Hin]; [reflexivity|].
    by apply elem_of_nil in Hin. }
  subst to_. simpl. rewrite !elem_of_difference, !elem_of_singleton.
  split; [|tauto]. split; [by apply Hjoin|exact Hne].
Qed.

Lemma group_typing_reaches_connected_members_witness :
  let w' := world (on_connection bob env_ok world0) in
  "s-bob" ∈ recipients w' (ToRoomExcept "g1" "s-alice")
  /\ ("s-alice" ∉ recipients w' (ToRoomExcept "g1" "s-alice")).
Proof.
  apply (group_typing_reaches_connected_members bob alice env_ok world0
           (mkGroup "g1" "team" ["A"; "B"; "C"] ["A"])
           eq_refl) with (signal := group_user_typing "A" "alice").
  - apply list_elem_of_here.
  - simpl. apply list_elem_of_further, list_elem_of_here.
  - discriminate.
  - simpl. apply list_elem_of_here.
Defined.
